(** * The PayPal payment provider of the Medusa plugin

    A shallow embedding of [src/providers/paypal-payment/service.ts]
    (class [PaypalPaymentProviderService]) and the properties of its
    status reconciliation logic.

    The service is TypeScript: its inputs are framework objects whose
    [data] field is a [Record<string, unknown>], read through unchecked
    casts ([as PaypalOrder]).  The embedding therefore works on JSON
    values with the property-read semantics of JavaScript, threads the
    calls to the PayPal SDK and the logger through a state and exception
    monad, and states the properties over the SDK's typed records through
    their JSON representation. *)

From Stdlib Require Import QArith.
From stdpp Require Import gmap strings list fin_maps.

Set Warnings "-register-all".
Local Open Scope Z_scope.
Local Open Scope string_scope.
Local Open Scope list_scope.

(** ** JavaScript values *)

Module JS.

(** The JSON fragment of JavaScript values, plus [undefined]. *)
Inductive value : Type :=
| VUndefined
| VNull
| VBool (b : bool)
| VNum (q : Q)
| VStr (s : string)
| VArr (elems : list value)
| VObj (fields : gmap string value).

(** What a [throw] can carry in this program. [JsError m] is
    [new Error(m)]; [TypeError] is the runtime error of reading a
    property of [undefined] or [null], or of calling something that is
    not a function; [ApiError] is the SDK's error class with the two
    fields the service reads; [MedusaError] is the framework's;
    [Failure] stands for any other exception of the SDK (transport). *)
Inductive exn : Type :=
| JsError (message : string)
| TypeError
| ApiError (statusCode : Z) (headers : value)
| MedusaError (type : string) (message : string)
| Failure (what : string).

(** Result of evaluating an expression: a value or a thrown exception. *)
Inductive outcome (A : Type) : Type :=
| Ret (a : A)
| Throw (e : exn).
Arguments Ret {A} a.
Arguments Throw {A} e.

(** [ToBoolean]: what [if], [&&], [!] and [!!] observe. *)
Definition truthy (v : value) : bool :=
  match v with
  | VUndefined | VNull => false
  | VBool b => b
  | VNum q => negb (Z.eqb (Qnum q) 0)
  | VStr s => negb (String.eqb s "")
  | VArr _ | VObj _ => true
  end.

Definition number_of_nat (n : nat) : value := VNum (inject_Z (Z.of_nat n)).

(** [v.k] for the property names the service reads (none of them is
    numeric or a prototype member other than [length]). *)
Definition prop (v : value) (k : string) : outcome value :=
  match v with
  | VUndefined | VNull => Throw TypeError
  | VObj fields => Ret (default VUndefined (fields !! k))
  | VArr elems =>
      Ret (if String.eqb k "length" then number_of_nat (length elems)
           else VUndefined)
  | VStr s =>
      Ret (if String.eqb k "length" then number_of_nat (String.length s)
           else VUndefined)
  | VBool _ | VNum _ => Ret VUndefined
  end.

(** [v?.k]: short-circuits to [undefined] on [undefined] and [null]. *)
Definition optprop (v : value) (k : string) : outcome value :=
  match v with
  | VUndefined | VNull => Ret VUndefined
  | _ => prop v k
  end.

(** [v[0]]. *)
Definition elem0 (v : value) : outcome value :=
  match v with
  | VUndefined | VNull => Throw TypeError
  | VArr elems => Ret (nth 0 elems VUndefined)
  | VObj fields => Ret (default VUndefined (fields !! "0"))
  | VStr s =>
      Ret (match s with
           | EmptyString => VUndefined
           | String c _ => VStr (String c EmptyString)
           end)
  | VBool _ | VNum _ => Ret VUndefined
  end.

(** [Array.prototype.some] with a callback that may throw: elements are
    visited in order until the callback's result is truthy. *)
Fixpoint some_elem (cb : value -> outcome value) (elems : list value)
  : outcome bool :=
  match elems with
  | [] => Ret false
  | x :: rest =>
      match cb x with
      | Throw e => Throw e
      | Ret r => if truthy r then Ret true else some_elem cb rest
      end
  end.

(** [v.some(cb)]: only arrays have the method; on anything else the
    member is not a function and the call throws. *)
Definition array_some (v : value) (cb : value -> outcome value) : outcome bool :=
  match v with
  | VArr elems => some_elem cb elems
  | _ => Throw TypeError
  end.

(** [v === "s"]. *)
Definition is_string (v : value) (s : string) : bool :=
  match v with
  | VStr s' => String.eqb s' s
  | _ => false
  end.

End JS.
Import JS.

(** ** The PayPal server SDK, as the service sees it *)

Module Sdk.

(** [OrderStatus] of [@paypal/paypal-server-sdk]. *)
Module OrderStatus.
Definition Created := "CREATED".
Definition Saved := "SAVED".
Definition Approved := "APPROVED".
Definition Voided := "VOIDED".
Definition Completed := "COMPLETED".
Definition PayerActionRequired := "PAYER_ACTION_REQUIRED".
End OrderStatus.

(** [CheckoutPaymentIntent.Authorize] and [PatchOp.Replace]. *)
Definition Authorize := "AUTHORIZE".
Definition Replace := "replace".

(** [Environment] of the client. *)
Inductive Environment : Type := Sandbox | Production.

(** The controller methods the service calls, with their request. *)
Inductive Call : Type :=
| CreateOrder (body : value)
| GetOrder (id : value)
| PatchOrder (id : value) (body : value)
| CaptureAuthorizedPayment (authorizationId : value)
| RefundCapturedPayment (captureId : value) (body : value)
| VoidPayment (authorizationId : value).

(** A call resolves to a response, of which the service reads the
    [result] field only, or rejects. *)
Inductive Response : Type :=
| Returns (result : value)
| Rejects (error : exn).

(** Calls that change the remote order's payments. *)
Definition is_refund (c : Call) : bool :=
  match c with RefundCapturedPayment _ _ => true | _ => false end.

Definition is_void (c : Call) : bool :=
  match c with VoidPayment _ => true | _ => false end.

End Sdk.
Import Sdk.

(** ** Effects: remote calls, logging, exceptions *)

(** What [logger_.error] is given. *)
Inductive LogEntry : Type :=
| LogStatusCode (statusCode : Z)
| LogHeaders (headers : value)
| LogError (error : exn).

(** The observable history of one run: the SDK calls issued, oldest
    first, and the lines logged. *)
Record History : Type := mkHistory {
  trace : list Call;
  logged : list LogEntry
}.

Definition start : History := mkHistory [] [].

(** An [async] computation: it runs from a history and ends by returning
    or throwing, in an extended history. *)
Definition M (A : Type) : Type := History -> outcome A * History.

Definition ret {A} (a : A) : M A := fun h => (Ret a, h).

Definition throw {A} (e : exn) : M A := fun h => (Throw e, h).

Definition bind {A B} (c : M A) (k : A -> M B) : M B :=
  fun h =>
    match c h with
    | (Ret a, h') => k a h'
    | (Throw e, h') => (Throw e, h')
    end.

(** A pure expression that may throw. *)
Definition eval {A} (o : outcome A) : M A := fun h => (o, h).

(** [try { body } catch (error) { handler }]. *)
Definition try_catch {A} (body : M A) (handler : exn -> M A) : M A :=
  fun h =>
    match body h with
    | (Ret a, h') => (Ret a, h')
    | (Throw e, h') => handler e h'
    end.

Definition log_error (entry : LogEntry) : M unit :=
  fun h => (Ret tt, mkHistory (trace h) (logged h ++ [entry])).

Declare Scope js_scope.
Delimit Scope js_scope with js.
Notation "x <- c ;; k" := (bind c (fun x => k))
  (at level 100, c at next level, right associativity) : js_scope.
Notation "c ;;; k" := (bind c (fun _ => k))
  (at level 100, right associativity) : js_scope.
Local Open Scope js_scope.

(** Pure expressions that may throw are sequenced the same way. *)
Definition and_then {A B} (o : outcome A) (k : A -> outcome B) : outcome B :=
  match o with
  | Ret a => k a
  | Throw e => Throw e
  end.

Notation "'let!' x := o 'in' k" := (and_then o (fun x => k))
  (at level 100, x name, o at next level, right associativity) : js_scope.

(** ** Construction and validation of the options *)

(** [MedusaError.Types.INVALID_DATA]. *)
Definition INVALID_DATA := "invalid_data".

(** What the constructor hands to [new PaypalClient]. *)
Record ClientConfig : Type := mkClientConfig {
  oAuthClientId : value;
  oAuthClientSecret : value;
  timeout : Z;
  environment : Environment
}.

(** [constructor(container, options)]: the client is built when the
    three options are truthy, else the constructor throws. The base
    class only stores its two arguments. *)
Definition constructor (options : gmap string value) : outcome ClientConfig :=
  let! id := prop (VObj options) "oAuthClientId" in
  let! secret := prop (VObj options) "oAuthClientSecret" in
  let! env := prop (VObj options) "environment" in
  if truthy id && truthy secret && truthy env then
    Ret (mkClientConfig id secret 0
           (if is_string env "sandbox" then Sandbox else Production))
  else
    Throw (MedusaError INVALID_DATA
      "oAuthClientId, oAuthClientSecret and environment are required in the provider's options.").

(** [static validateOptions(options)]. *)
Definition validateOptions (options : gmap string value) : outcome unit :=
  let! id := prop (VObj options) "oAuthClientId" in
  if negb (truthy id) then
    Throw (MedusaError INVALID_DATA
      "oAuthClientId is required in the provider's options.")
  else
  let! secret := prop (VObj options) "oAuthClientSecret" in
  if negb (truthy secret) then
    Throw (MedusaError INVALID_DATA
      "oAuthClientSecret is required in the provider's options.")
  else
  let! env := prop (VObj options) "environment" in
  if negb (is_string env "production") && negb (is_string env "sandbox") then
    Throw (MedusaError INVALID_DATA
      "environment needs to be either production or sandbox")
  else Ret tt.

(** ** The payment operations *)

(** The switch of [getPaymentStatus], case by case in source order. *)
Definition paymentSessionStatus (status : value) : string :=
  if is_string status OrderStatus.Created then "pending"
  else if is_string status OrderStatus.Saved then "requires_more"
  else if is_string status OrderStatus.Approved then "requires_more"
  else if is_string status OrderStatus.PayerActionRequired then "requires_more"
  else if is_string status OrderStatus.Voided then "canceled"
  else if is_string status OrderStatus.Completed then "authorized"
  else "pending".

(** [paypalOrder.purchaseUnits?.length && paypalOrder.purchaseUnits[0].payments],
    the guard of [cancelPayment] and [refundPayment]. *)
Definition hasPayments (paypalOrder : value) : outcome bool :=
  let! purchaseUnits := prop paypalOrder "purchaseUnits" in
  let! len := optprop purchaseUnits "length" in
  if truthy len then
    let! unit0 := elem0 purchaseUnits in
    let! payments := prop unit0 "payments" in
    Ret (truthy payments)
  else Ret false.

(** The guard of [capturePayment]: the one above, and then
    [paypalOrder.purchaseUnits[0].payments.authorizations?.length]. *)
Definition hasAuthorizations (paypalOrder : value) : outcome bool :=
  let! purchaseUnits := prop paypalOrder "purchaseUnits" in
  let! len := optprop purchaseUnits "length" in
  if truthy len then
    let! unit0 := elem0 purchaseUnits in
    let! payments := prop unit0 "payments" in
    if truthy payments then
      let! authorizations := prop payments "authorizations" in
      let! alen := optprop authorizations "length" in
      Ret (truthy alen)
    else Ret false
  else Ret false.

(** The callback [(pu) => pu.payments?.captures?.length]. *)
Definition capturesLength (pu : value) : outcome value :=
  let! payments := prop pu "payments" in
  let! captures := optprop payments "captures" in
  optprop captures "length".

(** [paypalOrder.purchaseUnits.some((pu) => pu.payments?.captures?.length)]. *)
Definition isAlreadyCaptured (paypalOrder : value) : outcome bool :=
  let! purchaseUnits := prop paypalOrder "purchaseUnits" in
  array_some purchaseUnits capturesLength.

(** [paypalOrder.purchaseUnits[0].payments.captures![0].id]. *)
Definition firstCaptureId (paypalOrder : value) : outcome value :=
  let! purchaseUnits := prop paypalOrder "purchaseUnits" in
  let! unit0 := elem0 purchaseUnits in
  let! payments := prop unit0 "payments" in
  let! captures := prop payments "captures" in
  let! capture0 := elem0 captures in
  prop capture0 "id".

(** [paypalOrder.purchaseUnits[0].payments!.authorizations![0].id]. *)
Definition firstAuthorizationId (paypalOrder : value) : outcome value :=
  let! purchaseUnits := prop paypalOrder "purchaseUnits" in
  let! unit0 := elem0 purchaseUnits in
  let! payments := prop unit0 "payments" in
  let! authorizations := prop payments "authorizations" in
  let! authorization0 := elem0 authorizations in
  prop authorization0 "id".

(** [paymentData.data!.paypalOrder as PaypalOrder]: the cast checks
    nothing, the reads throw on [undefined]. *)
Definition embeddedOrder (paymentData : gmap string value) : outcome value :=
  let! data := prop (VObj paymentData) "data" in
  prop data "paypalOrder".

(** [{ ...paymentData, paypalOrderId: id, paypalOrder: order }]. *)
Definition withOrder (paymentData : gmap string value) (id order : value)
  : gmap string value :=
  <["paypalOrder" := order]> (<["paypalOrderId" := id]> paymentData).

(** [e === undefined || e === null], the test of an optional chain. *)
Definition nullish (v : value) : bool :=
  match v with
  | VUndefined | VNull => true
  | _ => false
  end.

(** [purchaseUnit.payments?.captures![0].id] of [refundPayment]: the
    whole chain is [undefined] when [payments] is nullish. *)
Definition refundCaptureId (purchaseUnit : value) : outcome value :=
  let! payments := prop purchaseUnit "payments" in
  if nullish payments then Ret VUndefined
  else
    let! captures := prop payments "captures" in
    let! capture0 := elem0 captures in
    prop capture0 "id".

(** [paypalOrder.status === Completed && !!paypalOrder.purchaseUnits[0].invoiceId]. *)
Definition isCanceledAndFullyRefund (paypalOrder status : value) : outcome bool :=
  if is_string status OrderStatus.Completed then
    let! purchaseUnits := prop paypalOrder "purchaseUnits" in
    let! unit0 := elem0 purchaseUnits in
    let! invoiceId := prop unit0 "invoiceId" in
    Ret (truthy invoiceId)
  else Ret false.

Section Service.

(** The PayPal service behind the client: its answer to a call, given the
    calls issued before it. *)
Variable remote : list Call -> Call -> Response.

(** [convertAmount] of [./formatters], which may throw. *)
Variable convertAmount : value -> value -> outcome value.

(** [await controller.method(request)]. *)
Definition await (c : Call) : M value :=
  fun h =>
    let h' := mkHistory (trace h ++ [c]) (logged h) in
    match remote (trace h) c with
    | Returns result => (Ret result, h')
    | Rejects error => (Throw error, h')
    end.

(** A [try] block either returns from the function ([Some]) or falls
    through to the statement after it ([None]). *)
Definition retrievePayment (paymentSessionData : gmap string value) : M value :=
  r <- try_catch
         (paypalOrder <- eval (embeddedOrder paymentSessionData) ;;
          paypalOrderId <- eval (prop paypalOrder "id") ;;
          result <- await (GetOrder paypalOrderId) ;;
          id <- eval (prop result "id") ;;
          if truthy id then
            ret (Some (VObj {[ "data" :=
                   VObj (withOrder paymentSessionData id result) ]}))
          else ret None)
         (fun error =>
            match error with
            | ApiError statusCode headers =>
                (log_error (LogStatusCode statusCode) ;;;
                 log_error (LogHeaders headers) ;;;
                 throw (JsError "Initialize payment failed"))
            | _ => ret None
            end) ;;
  match r with
  | Some output => ret output
  | None => throw (JsError "Initialize payment failed.")
  end.

Definition capturePayment (paymentData : gmap string value) : M value :=
  paypalOrder <- eval (embeddedOrder paymentData) ;;
  guard <- eval (hasAuthorizations paypalOrder) ;;
  if guard then
    id <- eval (firstAuthorizationId paypalOrder) ;;
    try_catch
      (await (CaptureAuthorizedPayment id) ;;;
       retrievePayment paymentData)
      (fun error =>
         log_error (LogError error) ;;;
         throw (JsError "An error occurred in capturePayment"))
  else throw (JsError "An error occurred in capturePayment").

Definition getPaymentStatus (paymentData : gmap string value) : M value :=
  retrievedPayment <- retrievePayment paymentData ;;
  data <- eval (prop retrievedPayment "data") ;;
  paypalOrder <- eval (prop data "paypalOrder") ;;
  status <- eval (prop paypalOrder "status") ;;
  ret (VObj {[ "status" := VStr (paymentSessionStatus status) ]}).

Definition authorizePayment (paymentData : gmap string value) : M value :=
  try_catch
    (statusOutput <- getPaymentStatus paymentData ;;
     status <- eval (prop statusOutput "status") ;;
     retrievedPayment <- retrievePayment paymentData ;;
     data <- eval (prop retrievedPayment "data") ;;
     paypalOrder <- eval (prop data "paypalOrder") ;;
     paypalOrderId <- eval (prop paypalOrder "id") ;;
     ret (VObj (<["status" := status]>
                  {[ "data" :=
                       VObj (<["paypalOrderId" := paypalOrderId]>
                               (<["paypalOrder" := paypalOrder]> paymentData)) ]})))
    (fun _ => throw (JsError "Authorize payment failed")).

Definition cancelPayment (paymentData : gmap string value) : M value :=
  paypalOrder <- eval (embeddedOrder paymentData) ;;
  guard <- eval (hasPayments paypalOrder) ;;
  if guard then
    status <- eval (prop paypalOrder "status") ;;
    let isAlreadyCanceled := is_string status OrderStatus.Voided in
    fullyRefund <- eval (isCanceledAndFullyRefund paypalOrder status) ;;
    if isAlreadyCanceled || fullyRefund then retrievePayment paymentData
    else
      try_catch
        (captured <- eval (isAlreadyCaptured paypalOrder) ;;
         (if captured : bool then
            capturesId <- eval (firstCaptureId paypalOrder) ;;
            await (RefundCapturedPayment capturesId VUndefined)
          else
            id <- eval (firstAuthorizationId paypalOrder) ;;
            await (VoidPayment id)) ;;;
         retrievePayment paymentData)
        (fun _ => throw (JsError "An error occurred in cancelPayment"))
  else throw (JsError "An error occurred in cancelPayment").

Definition initiatePayment (paymentData : gmap string value) : M value :=
  currency_code <- eval (prop (VObj paymentData) "currency_code") ;;
  amount <- eval (prop (VObj paymentData) "amount") ;;
  r <- try_catch
         (money <- eval (convertAmount amount currency_code) ;;
          result <- await (CreateOrder (VObj
                      (<["purchaseUnits" := VArr [VObj {[ "amount" := money ]}]]>
                         {[ "intent" := VStr Authorize ]}))) ;;
          id <- eval (prop result "id") ;;
          if truthy id then
            ret (Some (VObj (<["data" := VObj (withOrder paymentData id result)]>
                               {[ "id" := id ]})))
          else ret None)
         (fun error =>
            match error with
            | ApiError statusCode headers =>
                (log_error (LogStatusCode statusCode) ;;;
                 log_error (LogHeaders headers) ;;;
                 ret None)
            | _ => ret None
            end) ;;
  match r with
  | Some output => ret output
  | None => throw (JsError "Initialize payment failed")
  end.

Definition deletePayment (paymentSessionData : gmap string value) : M value :=
  ret (VObj paymentSessionData).

Definition refundPayment (paymentData : gmap string value) : M value :=
  paypalOrder <- eval (embeddedOrder paymentData) ;;
  guard <- eval (hasPayments paypalOrder) ;;
  if guard then
    purchaseUnits <- eval (prop paypalOrder "purchaseUnits") ;;
    purchaseUnit <- eval (elem0 purchaseUnits) ;;
    captured <- eval (isAlreadyCaptured paypalOrder) ;;
    if negb captured then throw (JsError "Cannot refund an uncaptured payment")
    else
      paymentId <- eval (refundCaptureId purchaseUnit) ;;
      unitAmount <- eval (prop purchaseUnit "amount") ;;
      currencyCode <- eval (optprop unitAmount "currencyCode") ;;
      amount <- eval (prop (VObj paymentData) "amount") ;;
      try_catch
        (money <- eval (convertAmount amount currencyCode) ;;
         await (RefundCapturedPayment paymentId (VObj {[ "amount" := money ]})) ;;;
         retrievePayment paymentData)
        (fun error =>
           log_error (LogError error) ;;;
           throw (JsError "An error occurred in refundPayment"))
  else throw (JsError "An error occurred in refundPayment").

Definition updatePayment (context : gmap string value) : M value :=
  amount <- eval (prop (VObj context) "amount") ;;
  currency_code <- eval (prop (VObj context) "currency_code") ;;
  try_catch
    (paypalOrder <- eval (embeddedOrder context) ;;
     paypalOrderId <- eval (prop paypalOrder "id") ;;
     money <- eval (convertAmount amount currency_code) ;;
     await (PatchOrder paypalOrderId
              (VArr [VObj (<["value" := VObj {[ "amount" := money ]}]>
                             {[ "op" := VStr Replace ]})])) ;;;
     retrievePayment context)
    (fun error =>
       log_error (LogError error) ;;;
       throw (JsError "An error occurred in updatePayment")).

(** [PaymentActions.NOT_SUPPORTED] of the framework. *)
Definition NOT_SUPPORTED := "not_supported".

Definition getWebhookActionAndData (data : value) : M value :=
  ret (VObj {[ "action" := VStr NOT_SUPPORTED ]}).

End Service.

(** ** The SDK's typed records and their JSON representation

    The fields of [Order], [PurchaseUnit], [PaymentCollection],
    [AuthorizationWithAdditionalData] and [OrdersCapture] that the
    service reads, all optional as in the SDK; every other field of the
    object is kept in [*_rest]. A field that is not set is a key that is
    not there, and reads as [undefined]. *)

Module Typed.

Record Authorization : Type := mkAuthorization {
  authorization_id : option string;
  authorization_rest : gmap string value
}.

Record Capture : Type := mkCapture {
  capture_id : option string;
  capture_rest : gmap string value
}.

Record PaymentCollection : Type := mkPaymentCollection {
  authorizations : option (list Authorization);
  captures : option (list Capture);
  payments_rest : gmap string value
}.

Record Money : Type := mkMoney {
  currencyCode : string;
  money_value : string
}.

Record PurchaseUnit : Type := mkPurchaseUnit {
  amount : option Money;
  invoiceId : option string;
  payments : option PaymentCollection;
  unit_rest : gmap string value
}.

Record Order : Type := mkOrder {
  order_id : option string;
  order_status : option string;
  purchaseUnits : option (list PurchaseUnit);
  order_rest : gmap string value
}.

Definition optional {A} (f : A -> value) (o : option A) : value :=
  match o with
  | Some a => f a
  | None => VUndefined
  end.

Definition array {A} (f : A -> value) (l : list A) : value := VArr (map f l).

(** An optional field of an object: the key is there when the field is
    set and is not there when it is not. *)
Definition field {A} (k : string) (f : A -> value) (o : option A)
    (fields : gmap string value) : gmap string value :=
  match o with
  | Some a => <[k := f a]> fields
  | None => delete k fields
  end.

Definition authorization_json (a : Authorization) : value :=
  VObj (field "id" VStr (authorization_id a) (authorization_rest a)).

Definition capture_json (c : Capture) : value :=
  VObj (field "id" VStr (capture_id c) (capture_rest c)).

Definition payments_json (p : PaymentCollection) : value :=
  VObj (field "authorizations" (array authorization_json) (authorizations p)
       (field "captures" (array capture_json) (captures p)
          (payments_rest p))).

Definition money_json (m : Money) : value :=
  VObj (<["currencyCode" := VStr (currencyCode m)]>
          {[ "value" := VStr (money_value m) ]}).

Definition unit_json (u : PurchaseUnit) : value :=
  VObj (field "amount" money_json (amount u)
       (field "invoiceId" VStr (invoiceId u)
       (field "payments" payments_json (payments u)
          (unit_rest u)))).

Definition order_json (o : Order) : value :=
  VObj (field "id" VStr (order_id o)
       (field "status" VStr (order_status o)
       (field "purchaseUnits" (array unit_json) (purchaseUnits o)
          (order_rest o)))).

(** The order's purchase units, none when the field is absent. *)
Definition units (o : Order) : list PurchaseUnit :=
  match purchaseUnits o with
  | Some us => us
  | None => []
  end.

Definition unit_captures (u : PurchaseUnit) : list Capture :=
  match payments u with
  | Some p => match captures p with Some cs => cs | None => [] end
  | None => []
  end.

Definition unit_authorizations (u : PurchaseUnit) : list Authorization :=
  match payments u with
  | Some p => match authorizations p with Some l => l | None => [] end
  | None => []
  end.

(** "The first purchase unit has a payments sub-object." *)
Definition first_unit_has_payments (o : Order) : Prop :=
  exists u rest p, units o = u :: rest /\ payments u = Some p.

(** "Some purchase unit has at least one capture." *)
Definition some_unit_captured (o : Order) : Prop :=
  Exists (fun u => unit_captures u <> []) (units o).

(** "No capture exists on any purchase unit." *)
Definition no_unit_captured (o : Order) : Prop :=
  Forall (fun u => unit_captures u = []) (units o).

(** The idempotency-shortcut states of [cancelPayment]: voided, or
    completed with a non-empty invoice identifier on the first unit. *)
Definition already_canceled (o : Order) : Prop :=
  order_status o = Some OrderStatus.Voided \/
  (order_status o = Some OrderStatus.Completed /\
   exists u rest inv, units o = u :: rest /\ invoiceId u = Some inv /\ inv <> "").

(** A session payload that embeds the order [o]: the operation's input
    has a [data] object whose [paypalOrder] is the order. *)
Definition embeds (paymentData : gmap string value) (o : Order) : Prop :=
  exists data : gmap string value,
    paymentData !! "data" = Some (VObj data) /\
    data !! "paypalOrder" = Some (order_json o).

End Typed.
Import Typed.

(** ** Vocabulary of the properties *)

(** The history after one more call. *)
Definition called (h : History) (c : Call) : History :=
  mkHistory (trace h ++ [c]) (logged h).

(** The output [retrievePayment] builds around a fetched order. *)
Definition fetched (paymentData : gmap string value) (id result : value) : value :=
  VObj {[ "data" := VObj (withOrder paymentData id result) ]}.

(** The status mapping table of the specification: the framework status
    that goes with a remote order status. *)
Definition status_table (remoteStatus : value) (frameworkStatus : string) : Prop :=
  (remoteStatus = VStr OrderStatus.Created -> frameworkStatus = "pending") /\
  (remoteStatus = VStr OrderStatus.Saved -> frameworkStatus = "requires_more") /\
  (remoteStatus = VStr OrderStatus.Approved -> frameworkStatus = "requires_more") /\
  (remoteStatus = VStr OrderStatus.PayerActionRequired ->
   frameworkStatus = "requires_more") /\
  (remoteStatus = VStr OrderStatus.Voided -> frameworkStatus = "canceled") /\
  (remoteStatus = VStr OrderStatus.Completed -> frameworkStatus = "authorized") /\
  (remoteStatus <> VStr OrderStatus.Created ->
   remoteStatus <> VStr OrderStatus.Saved ->
   remoteStatus <> VStr OrderStatus.Approved ->
   remoteStatus <> VStr OrderStatus.PayerActionRequired ->
   remoteStatus <> VStr OrderStatus.Voided ->
   remoteStatus <> VStr OrderStatus.Completed ->
   frameworkStatus = "pending").

(** "The embedded order has at least one purchase unit with a payments
    sub-object." *)
Definition some_unit_has_payments (o : Order) : Prop :=
  Exists (fun u => payments u <> None) (units o).

(** The order embedded in an operation's output, [output.data.paypalOrder]. *)
Definition outputOrder (output : value) : outcome value :=
  let! data := prop output "data" in
  prop data "paypalOrder".

(** The identifier next to it, [output.data.paypalOrderId]. *)
Definition outputOrderId (output : value) : outcome value :=
  let! data := prop output "data" in
  prop data "paypalOrderId".

(** The output carries the order [order] under its identifier [id]:
    that order is what [output.data.paypalOrder] reads, and that
    identifier what [output.data.paypalOrderId] reads. *)
Definition carries (output order id : value) : Prop :=
  outputOrder output = Ret order /\ outputOrderId output = Ret id.

(** The idempotency shortcut of [cancelPayment] as the specification
    words it: in a shortcut state no remote call at all is issued and the
    same order comes back. *)
Definition cancel_shortcut_without_call
    (remote : list Call -> Call -> Response)
    (paymentData : gmap string value) (o : Order) (h : History) : Prop :=
  embeds paymentData o -> some_unit_has_payments o -> already_canceled o ->
  exists output,
    cancelPayment remote paymentData h = (Ret output, h) /\
    outputOrder output = Ret (order_json o).

(** The calls a run from [h] has issued when it ends in [h']. *)
Definition issued (h h' : History) : list Call :=
  drop (length (trace h)) (trace h').

(** The choice between refund and void as the specification words it:
    outside the shortcut states, a refund is issued when any purchase
    unit has a capture, and a void when none has. *)
Definition cancel_refunds_or_voids
    (remote : list Call -> Call -> Response)
    (paymentData : gmap string value) (o : Order) (h : History) : Prop :=
  embeds paymentData o -> ~ already_canceled o -> some_unit_has_payments o ->
  let calls := issued h (snd (cancelPayment remote paymentData h)) in
  (some_unit_captured o -> existsb is_refund calls = true) /\
  (no_unit_captured o -> existsb is_void calls = true).

(** The precondition of [refundPayment] as the specification words it:
    whenever no purchase unit has a capture, the refund fails with the
    uncaptured-payment error and nothing is called. *)
Definition refund_uncaptured_fails
    (remote : list Call -> Call -> Response)
    (convertAmount : value -> value -> outcome value)
    (paymentData : gmap string value) (o : Order) (h : History) : Prop :=
  embeds paymentData o -> no_unit_captured o ->
  refundPayment remote convertAmount paymentData h
  = (Throw (JsError "Cannot refund an uncaptured payment"), h).

(** The first authorization of the first purchase unit, if there is one:
    none when there is no purchase unit, no payments sub-object, or no
    authorization in it. *)
Definition first_authorization (o : Order) : option Authorization :=
  match units o with
  | u :: _ => head (unit_authorizations u)
  | [] => None
  end.

(** [options.k], [undefined] when the key is absent. *)
Definition option_value (options : gmap string value) (k : string) : value :=
  default VUndefined (options !! k).

(** A configuration error: the framework's error of type invalid data. *)
Definition configuration_error (e : exn) : Prop :=
  exists message, e = MedusaError INVALID_DATA message.

(** Construction as the specification words it: it fails when one of the
    three options is missing and when the environment is anything other
    than sandbox or production. *)
Definition construction_checks_environment (options : gmap string value) : Prop :=
  truthy (option_value options "oAuthClientId") = false \/
  truthy (option_value options "oAuthClientSecret") = false \/
  truthy (option_value options "environment") = false \/
  (option_value options "environment" <> VStr "sandbox" /\
   option_value options "environment" <> VStr "production") ->
  exists e, constructor options = Throw e /\ configuration_error e.

(** The operations that build the session payload they return:
    [initiatePayment], [retrievePayment], [authorizePayment], and the
    four that return [retrievePayment]'s result. *)
Inductive Operation : Type :=
| InitiatePayment | RetrievePayment | AuthorizePayment | CapturePayment
| CancelPayment | RefundPayment | UpdatePayment.

Definition run
    (remote : list Call -> Call -> Response)
    (convertAmount : value -> value -> outcome value)
    (op : Operation) (input : gmap string value) : M value :=
  match op with
  | InitiatePayment => initiatePayment remote convertAmount input
  | RetrievePayment => retrievePayment remote input
  | AuthorizePayment => authorizePayment remote input
  | CapturePayment => capturePayment remote input
  | CancelPayment => cancelPayment remote input
  | RefundPayment => refundPayment remote convertAmount input
  | UpdatePayment => updatePayment remote convertAmount input
  end.

(** The order in an output came from the remote service, as the answer
    to a fetch or to the creation, with a truthy identifier. *)
Definition answered (remote : list Call -> Call -> Response)
    (result id : value) : Prop :=
  prop result "id" = Ret id /\ truthy id = true /\
  exists before request,
    remote before request = Returns result /\
    ((exists orderId, request = GetOrder orderId) \/
     (exists body, request = CreateOrder body)).

(** Two mappings agree on every key but the two the adapter sets. *)
Definition round_tripped (before after : gmap string value) : Prop :=
  forall k, k <> "paypalOrder" -> k <> "paypalOrderId" ->
    after !! k = before !! k.

(** The round trip as the specification words it: the session payload is
    the framework's [data] field, and the payload an operation returns
    is the payload it was given, but for the two fields. *)
Definition payload_round_tripped
    (remote : list Call -> Call -> Response)
    (convertAmount : value -> value -> outcome value)
    (op : Operation) (input : gmap string value) (h : History) : Prop :=
  forall output h' (given returned : gmap string value),
    run remote convertAmount op input h = (Ret output, h') ->
    prop (VObj input) "data" = Ret (VObj given) ->
    prop output "data" = Ret (VObj returned) ->
    round_tripped given returned.

(** The capture as the specification words it: once the remote service
    has accepted the capture, the order is fetched again and returned. *)
Definition capture_returns_order
    (remote : list Call -> Call -> Response)
    (paymentData : gmap string value) (o : Order) (h : History) : Prop :=
  embeds paymentData o ->
  forall a accepted,
    first_authorization o = Some a ->
    remote (trace h)
      (CaptureAuthorizedPayment (optional VStr (authorization_id a)))
    = Returns accepted ->
    exists output h',
      capturePayment remote paymentData h = (Ret output, h') /\
      exists order id, carries output order id.

(** ** Concrete scenarios *)

Module Scenario.

(** A session input whose [data] embeds the order [o], with the
    [paypalOrderId] convenience field next to it. *)
Definition payload (o : Order) : gmap string value :=
  {[ "data" := VObj (<["paypalOrderId" := optional VStr (order_id o)]>
                       {[ "paypalOrder" := order_json o ]}) ]}.

(** A remote service that answers every creation and every fetch with
    [result] and accepts every other call. *)
Definition answering (result : value) : list Call -> Call -> Response :=
  fun _ c =>
    match c with
    | CreateOrder _ | GetOrder _ => Returns result
    | _ => Returns VUndefined
    end.

(** A remote service that rejects every call with [error]. *)
Definition rejecting (error : exn) : list Call -> Call -> Response :=
  fun _ _ => Rejects error.

(** A formatter that builds the SDK's money object. *)
Definition formatAmount (amount currency : value) : outcome value :=
  Ret (VObj (<["currencyCode" := currency]> {[ "value" := amount ]})).

Definition authorization (id : string) : Authorization :=
  mkAuthorization (Some id) ∅.

Definition capture (id : string) : Capture := mkCapture (Some id) ∅.

Definition usd (v : string) : Money := mkMoney "USD" v.

(** A session payload that carries one more key, [cart_id], and the
    input that holds it. *)
Definition cartData (o : Order) : gmap string value :=
  <["cart_id" := VStr "cart_1"]>
    (<["paypalOrderId" := optional VStr (order_id o)]>
       {[ "paypalOrder" := order_json o ]}).

Definition payloadWithCart (o : Order) : gmap string value :=
  {[ "data" := VObj (cartData o) ]}.

(** The input of [initiatePayment]: an amount and a currency. *)
Definition initiateInput (amount : Q) (currency : string) : gmap string value :=
  <["currency_code" := VStr currency]> {[ "amount" := VNum amount ]}.

(** Complete options that name an environment PayPal does not have. *)
Definition stagingOptions : gmap string value :=
  <["environment" := VStr "staging"]>
    (<["oAuthClientSecret" := VStr "secret"]>
       {[ "oAuthClientId" := VStr "client" ]}).

(** The input of [refundPayment]: the payload and the amount to refund. *)
Definition refundInput (o : Order) (amount : Q) : gmap string value :=
  <["amount" := VNum amount]> (payload o).

(** Scenario A: order O1, just created, one purchase unit of 10.00 USD. *)
Definition orderO1 : Order :=
  mkOrder (Some "O1") (Some OrderStatus.Created)
    (Some [mkPurchaseUnit (Some (usd "10.00")) None None ∅]) ∅.

(** Scenario D: order O3, voided, with its authorization A1. *)
Definition orderO3 : Order :=
  mkOrder (Some "O3") (Some OrderStatus.Voided)
    (Some [mkPurchaseUnit (Some (usd "10.00")) None
             (Some (mkPaymentCollection (Some [authorization "A1"]) None ∅)) ∅]) ∅.

(** Order O5, created, whose only purchase unit has a payments
    sub-object that lists neither authorizations nor captures. *)
Definition orderO5 : Order :=
  mkOrder (Some "O5") (Some OrderStatus.Created)
    (Some [mkPurchaseUnit (Some (usd "10.00")) None
             (Some (mkPaymentCollection None None ∅)) ∅]) ∅.

(** Order O6, approved, with two purchase units: the first has the
    authorization A1 and no captures, the second has the capture C1. *)
Definition orderO6 : Order :=
  mkOrder (Some "O6") (Some OrderStatus.Approved)
    (Some [mkPurchaseUnit (Some (usd "10.00")) None
             (Some (mkPaymentCollection (Some [authorization "A1"]) None ∅)) ∅;
           mkPurchaseUnit (Some (usd "5.00")) None
             (Some (mkPaymentCollection None (Some [capture "C1"]) ∅)) ∅]) ∅.

(** Scenario C: order O2, completed, one capture C1, no invoice
    identifier. *)
Definition orderO2 : Order :=
  mkOrder (Some "O2") (Some OrderStatus.Completed)
    (Some [mkPurchaseUnit (Some (usd "10.00")) None
             (Some (mkPaymentCollection (Some [authorization "A1"])
                      (Some [capture "C1"]) ∅)) ∅]) ∅.

(** Scenario B, after the capture: order O1 completed, with C1. *)
Definition orderO1captured : Order :=
  mkOrder (Some "O1") (Some OrderStatus.Completed)
    (Some [mkPurchaseUnit (Some (usd "10.00")) None
             (Some (mkPaymentCollection (Some [authorization "A1"])
                      (Some [capture "C1"]) ∅)) ∅]) ∅.

(** Scenario B: order O1 once authorized: one authorization A1, no
    captures. *)
Definition orderO1authorized : Order :=
  mkOrder (Some "O1") (Some OrderStatus.Approved)
    (Some [mkPurchaseUnit (Some (usd "10.00")) None
             (Some (mkPaymentCollection (Some [authorization "A1"]) None ∅)) ∅]) ∅.

(** Order O3 as the remote service has it later: voided, with the
    invoice it was given in the meantime. *)
Definition orderO3later : Order :=
  mkOrder (Some "O3") (Some OrderStatus.Voided)
    (Some [mkPurchaseUnit (Some (usd "10.00")) (Some "INV-3")
             (Some (mkPaymentCollection (Some [authorization "A1"]) None ∅)) ∅]) ∅.

(** Order O8, voided, whose first purchase unit has no payments
    sub-object while its second one has the authorization A1. *)
Definition orderO8 : Order :=
  mkOrder (Some "O8") (Some OrderStatus.Voided)
    (Some [mkPurchaseUnit (Some (usd "10.00")) None None ∅;
           mkPurchaseUnit (Some (usd "5.00")) None
             (Some (mkPaymentCollection (Some [authorization "A1"]) None ∅)) ∅]) ∅.

(** A remote service that accepts the first call and answers every later
    one with an object without identifier. *)
Definition forgetting : list Call -> Call -> Response :=
  fun before _ =>
    match before with
    | [] => Returns VUndefined
    | _ => Returns (VObj ∅)
    end.

End Scenario.

(** ** Vocabulary of the further properties *)

(** Calls that change something on the remote side: every call but the
    fetch of an order. *)
Definition is_mutation (c : Call) : bool :=
  match c with
  | GetOrder _ => false
  | _ => true
  end.

(** A computation only extends the history it starts from: by at most
    [n] calls, at most [m] of them mutations, and by some logged lines. *)
Definition extends_by {A} (n m : nat) (c : M A) : Prop :=
  forall h, exists calls lines,
    trace (snd (c h)) = trace h ++ calls /\
    logged (snd (c h)) = logged h ++ lines /\
    (length calls <= n)%nat /\
    (length (List.filter is_mutation calls) <= m)%nat.

(** A pure expression throws nothing but a [TypeError]. *)
Definition type_errors_only {A} (o : outcome A) : Prop :=
  forall e, o = Throw e -> e = TypeError.

(** The messages of the errors an operation throws on purpose. *)
Definition messages (op : Operation) : list string :=
  match op with
  | InitiatePayment => ["Initialize payment failed"]
  | RetrievePayment =>
      ["Initialize payment failed"; "Initialize payment failed."]
  | AuthorizePayment => ["Authorize payment failed"]
  | CapturePayment => ["An error occurred in capturePayment"]
  | CancelPayment =>
      ["An error occurred in cancelPayment";
       "Initialize payment failed"; "Initialize payment failed."]
  | RefundPayment =>
      ["An error occurred in refundPayment";
       "Cannot refund an uncaptured payment"]
  | UpdatePayment => ["An error occurred in updatePayment"]
  end.

(** The operations that read the embedded order before their [try]. *)
Definition reads_order_unguarded (op : Operation) : bool :=
  match op with
  | CapturePayment | CancelPayment | RefundPayment => true
  | _ => false
  end.

(** The input has no embedded order: no [data], or a [data] without
    [paypalOrder]. *)
Definition lacks_order (paymentData : gmap string value) : Prop :=
  paymentData !! "data" = None \/
  exists data : gmap string value,
    paymentData !! "data" = Some (VObj data) /\ data !! "paypalOrder" = None.

(** The request of [initiatePayment]: intent authorize, one purchase
    unit with the converted amount. *)
Definition createOrderBody (money : value) : value :=
  VObj (<["purchaseUnits" := VArr [VObj {[ "amount" := money ]}]]>
          {[ "intent" := VStr Authorize ]}).

(** The request of [updatePayment]: one replace operation on the amount. *)
Definition patchOrderBody (money : value) : value :=
  VArr [VObj (<["value" := VObj {[ "amount" := money ]}]>
                {[ "op" := VStr Replace ]})].

(** The currency [refundPayment] converts to: the first purchase unit's,
    [undefined] when the unit has no amount. *)
Definition unit_currency (u : PurchaseUnit) : value :=
  match amount u with
  | Some m => VStr (currencyCode m)
  | None => VUndefined
  end.

Module Story.

(** A remote service whose order changes between two fetches: the first
    call is answered with [first], every later one with [second]. *)
Definition changing (first second : value) : list Call -> Call -> Response :=
  fun before _ =>
    match before with
    | [] => Returns first
    | _ => Returns second
    end.

(** A remote service that accepts the first call and rejects every later
    one with [error]. *)
Definition failing_after (error : exn) : list Call -> Call -> Response :=
  fun before _ =>
    match before with
    | [] => Returns VUndefined
    | _ => Rejects error
    end.

(** Order O7, voided, whose purchase unit has no payments sub-object. *)
Definition orderO7 : Order :=
  mkOrder (Some "O7") (Some OrderStatus.Voided)
    (Some [mkPurchaseUnit (Some (Scenario.usd "10.00")) None None ∅]) ∅.

(** The input of [updatePayment]: payload, new amount and currency. *)
Definition updateInput (o : Order) (amount : Q) (currency : string)
  : gmap string value :=
  <["currency_code" := VStr currency]>
    (<["amount" := VNum amount]> (Scenario.payload o)).

(** An input without [data]. *)
Definition bare : gmap string value := {[ "amount" := VNum 5 ]}.

Definition sandboxOptions : gmap string value :=
  <["environment" := VStr "sandbox"]>
    (<["oAuthClientSecret" := VStr "secret"]>
       {[ "oAuthClientId" := VStr "client" ]}).

End Story.

(** The mutation [cancelPayment] chooses outside the shortcut states: the
    refund of the first purchase unit's first capture when that unit has
    one, the void of its first authorization when no purchase unit has a
    capture and the first has an authorization. *)
Definition cancelRequest (o : Order) : option Call :=
  match units o with
  | [] => None
  | u :: _ =>
      match unit_captures u with
      | c :: _ => Some (RefundCapturedPayment (optional VStr (capture_id c)) VUndefined)
      | [] =>
          if forallb (fun u' => match unit_captures u' with
                                | [] => true
                                | _ => false
                                end) (units o)
          then match unit_authorizations u with
               | a :: _ => Some (VoidPayment (optional VStr (authorization_id a)))
               | [] => None
               end
          else None
      end
  end.

(** * Properties *)

(** ** Reading the JSON of the typed records *)

#[local] Arguments order_json : simpl never.
#[local] Arguments unit_json : simpl never.
#[local] Arguments payments_json : simpl never.
#[local] Arguments money_json : simpl never.
#[local] Arguments authorization_json : simpl never.
#[local] Arguments capture_json : simpl never.

Lemma truthy_length (n : nat) : truthy (number_of_nat n) = negb (Nat.eqb n 0).
Proof. destruct n; reflexivity. Qed.

Lemma lookup_field_eq {A} k (f : A -> value) o (fields : gmap string value) :
  default VUndefined (field k f o fields !! k) = optional f o.
Proof.
  unfold field. destruct o; [by rewrite lookup_insert_eq | by rewrite lookup_delete_eq].
Qed.

Lemma lookup_field_ne {A} k k' (f : A -> value) o (fields : gmap string value) :
  k <> k' -> field k f o fields !! k' = fields !! k'.
Proof.
  intros Hne. unfold field.
  destruct o; [by rewrite lookup_insert_ne | by rewrite lookup_delete_ne].
Qed.

Lemma prop_order_id o : prop (order_json o) "id" = Ret (optional VStr (order_id o)).
Proof. unfold order_json, prop. by rewrite lookup_field_eq. Qed.

Lemma prop_order_status o :
  prop (order_json o) "status" = Ret (optional VStr (order_status o)).
Proof.
  unfold order_json, prop.
  rewrite lookup_field_ne; [|done]. by rewrite lookup_field_eq.
Qed.

Lemma prop_order_purchaseUnits o :
  prop (order_json o) "purchaseUnits"
  = Ret (optional (array unit_json) (purchaseUnits o)).
Proof.
  unfold order_json, prop.
  do 2 (rewrite lookup_field_ne; [|done]). by rewrite lookup_field_eq.
Qed.

Lemma prop_unit_payments u :
  prop (unit_json u) "payments" = Ret (optional payments_json (payments u)).
Proof.
  unfold unit_json, prop.
  do 2 (rewrite lookup_field_ne; [|done]). by rewrite lookup_field_eq.
Qed.

Lemma prop_unit_invoiceId u :
  prop (unit_json u) "invoiceId" = Ret (optional VStr (invoiceId u)).
Proof.
  unfold unit_json, prop.
  rewrite lookup_field_ne; [|done]. by rewrite lookup_field_eq.
Qed.

Lemma prop_unit_amount u :
  prop (unit_json u) "amount" = Ret (optional money_json (amount u)).
Proof. unfold unit_json, prop. by rewrite lookup_field_eq. Qed.

Lemma prop_payments_authorizations p :
  prop (payments_json p) "authorizations"
  = Ret (optional (array authorization_json) (authorizations p)).
Proof. unfold payments_json, prop. by rewrite lookup_field_eq. Qed.

Lemma prop_payments_captures p :
  prop (payments_json p) "captures"
  = Ret (optional (array capture_json) (captures p)).
Proof.
  unfold payments_json, prop.
  rewrite lookup_field_ne; [|done]. by rewrite lookup_field_eq.
Qed.

Lemma prop_authorization_id a :
  prop (authorization_json a) "id" = Ret (optional VStr (authorization_id a)).
Proof. unfold authorization_json, prop. by rewrite lookup_field_eq. Qed.

Lemma prop_capture_id c :
  prop (capture_json c) "id" = Ret (optional VStr (capture_id c)).
Proof. unfold capture_json, prop. by rewrite lookup_field_eq. Qed.

Lemma embeddedOrder_embeds paymentData o :
  embeds paymentData o -> embeddedOrder paymentData = Ret (order_json o).
Proof.
  intros (data & Hdata & Horder).
  unfold embeddedOrder, prop, and_then. rewrite Hdata. simpl. by rewrite Horder.
Qed.

(** ** The guards, on the JSON of a typed order *)

Lemma hasPayments_json o :
  hasPayments (order_json o)
  = Ret (match units o with
         | u :: _ => match payments u with Some _ => true | None => false end
         | [] => false
         end).
Proof.
  unfold hasPayments, units. rewrite prop_order_purchaseUnits. cbn.
  destruct (purchaseUnits o) as [[|u us]|]; cbn; try reflexivity.
  rewrite prop_unit_payments. cbn.
  destruct (payments u); reflexivity.
Qed.

Lemma hasAuthorizations_json o :
  hasAuthorizations (order_json o)
  = Ret (match units o with
         | u :: _ => match unit_authorizations u with _ :: _ => true | [] => false end
         | [] => false
         end).
Proof.
  unfold hasAuthorizations, units, unit_authorizations.
  rewrite prop_order_purchaseUnits. cbn.
  destruct (purchaseUnits o) as [[|u us]|]; cbn; try reflexivity.
  rewrite prop_unit_payments. cbn.
  destruct (payments u) as [p|]; cbn; try reflexivity.
  rewrite prop_payments_authorizations. cbn.
  destruct (authorizations p) as [[|a l]|]; reflexivity.
Qed.

Lemma capturesLength_json u :
  capturesLength (unit_json u)
  = Ret (match payments u with
         | Some p => match captures p with
                     | Some cs => number_of_nat (length cs)
                     | None => VUndefined
                     end
         | None => VUndefined
         end).
Proof.
  unfold capturesLength. rewrite prop_unit_payments. cbn.
  destruct (payments u) as [p|]; cbn; try reflexivity.
  change (optprop (payments_json p) "captures") with (prop (payments_json p) "captures").
  rewrite prop_payments_captures. cbn.
  destruct (captures p) as [cs|]; cbn; [|reflexivity].
  unfold array. cbn. by rewrite length_map.
Qed.

Lemma truthy_capturesLength u r :
  capturesLength (unit_json u) = Ret r ->
  truthy r = match unit_captures u with _ :: _ => true | [] => false end.
Proof.
  rewrite capturesLength_json. intros [= <-]. unfold unit_captures.
  destruct (payments u) as [p|]; try reflexivity.
  destruct (captures p) as [[|c cs]|]; reflexivity.
Qed.

Lemma some_elem_captured us :
  Exists (fun u => unit_captures u <> []) us ->
  some_elem capturesLength (map unit_json us) = Ret true.
Proof.
  induction us as [|u us IH]; intros Hex.
  - inversion Hex.
  - cbn. destruct (capturesLength (unit_json u)) as [r|e] eqn:Hr.
    + rewrite (truthy_capturesLength _ _ Hr).
      destruct (unit_captures u) as [|c cs] eqn:Hc; [|reflexivity].
      apply IH. inversion Hex; subst; [congruence | assumption].
    + rewrite capturesLength_json in Hr. discriminate.
Qed.

Lemma some_elem_uncaptured us :
  Forall (fun u => unit_captures u = []) us ->
  some_elem capturesLength (map unit_json us) = Ret false.
Proof.
  induction 1 as [|u us Hu _ IH]; [reflexivity|].
  cbn. destruct (capturesLength (unit_json u)) as [r|e] eqn:Hr.
  - rewrite (truthy_capturesLength _ _ Hr), Hu. exact IH.
  - rewrite capturesLength_json in Hr. discriminate.
Qed.

Lemma isAlreadyCaptured_true o :
  some_unit_captured o -> isAlreadyCaptured (order_json o) = Ret true.
Proof.
  unfold some_unit_captured, isAlreadyCaptured, units.
  rewrite prop_order_purchaseUnits. cbn.
  destruct (purchaseUnits o) as [us|]; intros Hex.
  - apply some_elem_captured, Hex.
  - inversion Hex.
Qed.

Lemma isAlreadyCaptured_false o u rest :
  units o = u :: rest -> no_unit_captured o ->
  isAlreadyCaptured (order_json o) = Ret false.
Proof.
  unfold no_unit_captured, isAlreadyCaptured, units.
  rewrite prop_order_purchaseUnits. cbn.
  destruct (purchaseUnits o) as [us|]; intros Hus Hall; [|discriminate].
  apply some_elem_uncaptured, Hall.
Qed.

Lemma firstCaptureId_json o u rest c cs :
  units o = u :: rest -> unit_captures u = c :: cs ->
  firstCaptureId (order_json o) = Ret (optional VStr (capture_id c)).
Proof.
  unfold firstCaptureId, units, unit_captures.
  rewrite prop_order_purchaseUnits. cbn.
  destruct (purchaseUnits o) as [us|]; intros Hus Hc; [|discriminate].
  subst us. cbn. rewrite prop_unit_payments. cbn.
  destruct (payments u) as [p|]; [|discriminate]. cbn.
  rewrite prop_payments_captures. cbn.
  destruct (captures p) as [l|]; [|discriminate]. subst l. cbn.
  apply prop_capture_id.
Qed.

Lemma firstAuthorizationId_json o u rest a l :
  units o = u :: rest -> unit_authorizations u = a :: l ->
  firstAuthorizationId (order_json o) = Ret (optional VStr (authorization_id a)).
Proof.
  unfold firstAuthorizationId, units, unit_authorizations.
  rewrite prop_order_purchaseUnits. cbn.
  destruct (purchaseUnits o) as [us|]; intros Hus Ha; [|discriminate].
  subst us. cbn. rewrite prop_unit_payments. cbn.
  destruct (payments u) as [p|]; [|discriminate]. cbn.
  rewrite prop_payments_authorizations. cbn.
  destruct (authorizations p) as [l'|]; [|discriminate]. subst l'. cbn.
  apply prop_authorization_id.
Qed.

(** ** The fetch of [retrievePayment] *)

(** A property read throws nothing but a [TypeError]. *)
Lemma prop_throws v k e : prop v k = Throw e -> e = TypeError.
Proof. destruct v; simpl; congruence. Qed.

Section Fetch.

Variable remote : list Call -> Call -> Response.

(** The whole behaviour of [retrievePayment] on a payload with an
    embedded order: one [GetOrder], then a case analysis of the answer. *)
Lemma retrievePayment_run paymentData order orderId h :
  embeddedOrder paymentData = Ret order ->
  prop order "id" = Ret orderId ->
  retrievePayment remote paymentData h
  = match remote (trace h) (GetOrder orderId) with
    | Returns result =>
        match prop result "id" with
        | Ret id =>
            if truthy id
            then (Ret (fetched paymentData id result), called h (GetOrder orderId))
            else (Throw (JsError "Initialize payment failed."),
                  called h (GetOrder orderId))
        | Throw _ =>
            (Throw (JsError "Initialize payment failed."),
             called h (GetOrder orderId))
        end
    | Rejects (ApiError statusCode headers) =>
        (Throw (JsError "Initialize payment failed"),
         mkHistory (trace h ++ [GetOrder orderId])
           ((logged h ++ [LogStatusCode statusCode]) ++ [LogHeaders headers]))
    | Rejects _ =>
        (Throw (JsError "Initialize payment failed."),
         called h (GetOrder orderId))
    end.
Proof.
  intros Horder Hid.
  unfold retrievePayment, bind, try_catch, eval, await, ret, throw, called, fetched.
  rewrite Horder, Hid.
  destruct (remote (trace h) (GetOrder orderId)) as [result|error].
  - destruct (prop result "id") as [id|e] eqn:Hresult.
    + destruct (truthy id); reflexivity.
    + apply prop_throws in Hresult. subst e. reflexivity.
  - destruct error; reflexivity.
Qed.

(** A successful [retrievePayment] has fetched an order whose identifier
    is truthy, and returns the payload built around it. *)
Lemma retrievePayment_success paymentData h out h' :
  retrievePayment remote paymentData h = (Ret out, h') ->
  exists orderId result id,
    remote (trace h) (GetOrder orderId) = Returns result /\
    prop result "id" = Ret id /\ truthy id = true /\
    out = fetched paymentData id result /\
    h' = called h (GetOrder orderId).
Proof.
  unfold retrievePayment, bind, try_catch, eval, await, ret, throw, called, fetched.
  destruct (embeddedOrder paymentData) as [order|e]; [|destruct e; discriminate].
  destruct (prop order "id") as [orderId|e]; [|destruct e; discriminate].
  destruct (remote (trace h) (GetOrder orderId)) as [result|error] eqn:Hremote;
    [|destruct error; discriminate].
  destruct (prop result "id") as [id|e] eqn:Hid; [|destruct e; discriminate].
  destruct (truthy id) eqn:Htruthy; [|discriminate].
  intros [= <- <-]. exists orderId, result, id. auto.
Qed.

(** [retrievePayment] issues at most the one [GetOrder]. *)
Lemma retrievePayment_trace paymentData h :
  let h' := snd (retrievePayment remote paymentData h) in
  trace h' = trace h \/ exists orderId, trace h' = trace h ++ [GetOrder orderId].
Proof.
  unfold retrievePayment, bind, try_catch, eval, await, ret, throw.
  destruct (embeddedOrder paymentData) as [order|e]; [|destruct e; left; reflexivity].
  destruct (prop order "id") as [orderId|e]; [|destruct e; left; reflexivity].
  right. exists orderId.
  destruct (remote (trace h) (GetOrder orderId)) as [result|error];
    [|destruct error; reflexivity].
  destruct (prop result "id") as [id|e]; [|destruct e; reflexivity].
  destruct (truthy id); reflexivity.
Qed.

End Fetch.

(** ** Status mapping *)

Lemma is_string_true v s : is_string v s = true <-> v = VStr s.
Proof.
  destruct v; simpl; try (split; [discriminate | congruence]).
  rewrite String.eqb_eq. split; congruence.
Qed.

Lemma is_string_false v s : is_string v s = false <-> v <> VStr s.
Proof.
  rewrite <- is_string_true. destruct (is_string v s); split; congruence.
Qed.

Lemma paymentSessionStatus_table status :
  status_table status (paymentSessionStatus status).
Proof.
  unfold status_table, paymentSessionStatus.
  repeat split; intros; subst; try reflexivity.
  repeat match goal with
         | H : _ <> VStr _ |- _ => apply is_string_false in H; rewrite H; clear H
         end.
  reflexivity.
Qed.

(** A response that carries a truthy [id] is an object, and every one of
    its properties can be read. *)
Lemma identified_readable result id k :
  prop result "id" = Ret id -> truthy id = true ->
  exists v, prop result k = Ret v.
Proof.
  destruct result; simpl; intros [= <-]; try discriminate; eauto.
Qed.

Section StatusMapping.

Variable remote : list Call -> Call -> Response.

(** C1. Whenever the fetch of the order succeeds, [getPaymentStatus]
    returns the framework status that the mapping table gives for the
    fetched order's status: created to pending; saved, approved and
    payer-action-required to requires_more; voided to canceled; completed
    to authorized; anything else to pending. *)
Theorem getPaymentStatus_maps_status paymentData order orderId h result id :
  embeddedOrder paymentData = Ret order ->
  prop order "id" = Ret orderId ->
  remote (trace h) (GetOrder orderId) = Returns result ->
  prop result "id" = Ret id ->
  truthy id = true ->
  exists status framework,
    prop result "status" = Ret status /\
    getPaymentStatus remote paymentData h
    = (Ret (VObj {[ "status" := VStr framework ]}), called h (GetOrder orderId)) /\
    status_table status framework.
Proof.
  intros Horder HorderId Hremote Hid Htruthy.
  destruct (identified_readable result id "status" Hid Htruthy) as [status Hstatus].
  exists status, (paymentSessionStatus status).
  split; [assumption|]. split; [|apply paymentSessionStatus_table].
  unfold getPaymentStatus, bind.
  rewrite (retrievePayment_run remote paymentData order orderId h Horder HorderId).
  rewrite Hremote, Hid, Htruthy.
  unfold fetched, withOrder, eval, ret. simpl.
  rewrite lookup_singleton_eq. simpl.
  rewrite lookup_insert_eq. simpl.
  rewrite Hstatus. reflexivity.
Qed.

End StatusMapping.

Lemma getPaymentStatus_maps_status_witness :
  exists status framework,
    prop (order_json Scenario.orderO1) "status" = Ret status /\
    getPaymentStatus (Scenario.answering (order_json Scenario.orderO1))
      (Scenario.payload Scenario.orderO1) start
    = (Ret (VObj {[ "status" := VStr framework ]}),
       called start (GetOrder (VStr "O1"))) /\
    status_table status framework.
Proof.
  apply (getPaymentStatus_maps_status
           (Scenario.answering (order_json Scenario.orderO1))
           (Scenario.payload Scenario.orderO1)
           (order_json Scenario.orderO1) (VStr "O1") start
           (order_json Scenario.orderO1) (VStr "O1"));
    reflexivity.
Defined.

(** ** Reading an output back *)

(** The output built around a fetched order carries that order and the
    identifier it came with. *)
Lemma fetched_carries paymentData identifier result :
  carries (fetched paymentData identifier result) result identifier.
Proof.
  unfold carries, outputOrder, outputOrderId, fetched, withOrder, prop.
  rewrite lookup_singleton_eq. cbn [default from_option id and_then].
  split.
  - by rewrite lookup_insert_eq.
  - rewrite lookup_insert_ne; [|done]. by rewrite lookup_insert_eq.
Qed.

(** ** Cancellation *)

Lemma units_cons o u rest :
  units o = u :: rest -> purchaseUnits o = Some (u :: rest).
Proof. unfold units. destruct (purchaseUnits o); [congruence | discriminate]. Qed.

Lemma hasPayments_first o :
  first_unit_has_payments o -> hasPayments (order_json o) = Ret true.
Proof.
  intros (u & rest & p & Hunits & Hp).
  rewrite hasPayments_json, Hunits, Hp. reflexivity.
Qed.

Lemma truthy_nonempty s : s <> "" -> truthy (VStr s) = true.
Proof. intros Hs. simpl. apply negb_true_iff, String.eqb_neq, Hs. Qed.

(** In a shortcut state the two tests of [cancelPayment] add up to true. *)
Lemma already_canceled_tests o :
  already_canceled o ->
  exists fullyRefund,
    isCanceledAndFullyRefund (order_json o) (optional VStr (order_status o))
    = Ret fullyRefund /\
    is_string (optional VStr (order_status o)) OrderStatus.Voided || fullyRefund
    = true.
Proof.
  intros [Hvoided | (Hcompleted & u & rest & inv & Hunits & Hinv & Hne)].
  - rewrite Hvoided. exists false. split; reflexivity.
  - rewrite Hcompleted. exists true. split; [|reflexivity].
    unfold isCanceledAndFullyRefund. cbn.
    rewrite prop_order_purchaseUnits, (units_cons _ _ _ Hunits). cbn.
    rewrite prop_unit_invoiceId, Hinv. cbn.
    change (negb (String.eqb inv "")) with (truthy (VStr inv)).
    by rewrite truthy_nonempty.
Qed.

Section Cancellation.

Variable remote : list Call -> Call -> Response.

(** C2, as amended. In a shortcut state (voided, or completed with a
    non-empty invoice identifier on the first purchase unit), on an order
    whose first purchase unit has a payments sub-object, [cancelPayment]
    is [retrievePayment]: the only remote call is the fetch of the order
    (no refund, no void), and when the fetch answers with an identified
    order, that freshly fetched order is what is returned: the output's
    [paypalOrder] is the answer and its [paypalOrderId] the answer's
    identifier, whatever order the payload embedded. *)
Theorem cancelPayment_shortcut_fetches_only paymentData o h :
  embeds paymentData o ->
  first_unit_has_payments o ->
  already_canceled o ->
  let orderId := optional VStr (order_id o) in
  cancelPayment remote paymentData h = retrievePayment remote paymentData h /\
  trace (snd (cancelPayment remote paymentData h)) = trace h ++ [GetOrder orderId] /\
  forall result id,
    remote (trace h) (GetOrder orderId) = Returns result ->
    prop result "id" = Ret id -> truthy id = true ->
    exists output,
      cancelPayment remote paymentData h
      = (Ret output, called h (GetOrder orderId)) /\
      output = fetched paymentData id result /\
      carries output result id.
Proof.
  intros Hembeds Hpayments Hcanceled orderId.
  pose proof (embeddedOrder_embeds _ _ Hembeds) as Horder.
  assert (Hsame : cancelPayment remote paymentData h
                  = retrievePayment remote paymentData h).
  { destruct (already_canceled_tests o Hcanceled) as (fullyRefund & Hfully & Htests).
    unfold cancelPayment, bind, eval.
    rewrite Horder, (hasPayments_first o Hpayments), prop_order_status, Hfully, Htests.
    reflexivity. }
  rewrite Hsame.
  rewrite (retrievePayment_run remote paymentData _ orderId h Horder (prop_order_id o)).
  repeat split.
  - destruct (remote (trace h) (GetOrder orderId)) as [result|error].
    + destruct (prop result "id") as [id|e]; [destruct (truthy id)|]; reflexivity.
    + destruct error; reflexivity.
  - intros result id -> -> ->.
    exists (fetched paymentData id result).
    split; [reflexivity|]. split; [reflexivity | apply fetched_carries].
Qed.

End Cancellation.

Lemma cancelPayment_shortcut_fetches_only_witness :
  let remote := Scenario.answering (order_json Scenario.orderO3later) in
  let paymentData := Scenario.payload Scenario.orderO3 in
  cancelPayment remote paymentData start = retrievePayment remote paymentData start /\
  trace (snd (cancelPayment remote paymentData start))
  = trace start ++ [GetOrder (VStr "O3")] /\
  forall result id,
    remote (trace start) (GetOrder (VStr "O3")) = Returns result ->
    prop result "id" = Ret id -> truthy id = true ->
    exists output,
      cancelPayment remote paymentData start
      = (Ret output, called start (GetOrder (VStr "O3"))) /\
      output = fetched paymentData id result /\
      carries output result id.
Proof.
  apply (cancelPayment_shortcut_fetches_only
           (Scenario.answering (order_json Scenario.orderO3later))
           (Scenario.payload Scenario.orderO3) Scenario.orderO3 start).
  - eexists. split; reflexivity.
  - do 3 eexists. split; reflexivity.
  - left. reflexivity.
Defined.

(** The voided order O3 has changed on the remote side since it was
    embedded: what [cancelPayment] returns is the order as fetched, with
    its invoice, and not the embedded one. *)
Example cancelPayment_shortcut_returns_fetched :
  let output := fst (cancelPayment
                       (Scenario.answering (order_json Scenario.orderO3later))
                       (Scenario.payload Scenario.orderO3) start) in
  and_then output outputOrder = Ret (order_json Scenario.orderO3later) /\
  order_json Scenario.orderO3later <> order_json Scenario.orderO3.
Proof.
  split; [vm_compute; reflexivity|].
  intros Hsame.
  assert (Hinvoice : and_then (and_then (prop (order_json Scenario.orderO3later)
                                           "purchaseUnits") elem0)
                       (fun u => prop u "invoiceId")
                     = and_then (and_then (prop (order_json Scenario.orderO3)
                                             "purchaseUnits") elem0)
                         (fun u => prop u "invoiceId"))
    by (rewrite Hsame; reflexivity).
  vm_compute in Hinvoice. discriminate Hinvoice.
Qed.

(** C2, as stated, fails on scenario D: the voided order O3 is fetched
    again, so a remote call is issued. *)
Lemma cancelPayment_shortcut_calls_remote :
  ~ cancel_shortcut_without_call
      (Scenario.answering (order_json Scenario.orderO3))
      (Scenario.payload Scenario.orderO3) Scenario.orderO3 start.
Proof.
  intros Hclaim. destruct Hclaim as (output & Hrun & _).
  - eexists. split; reflexivity.
  - constructor. discriminate.
  - left. reflexivity.
  - vm_compute in Hrun. discriminate.
Qed.

(** The payments sub-object has to be on the first purchase unit: the
    voided order O8 has it on its second unit only, and its cancellation
    ends in the generic cancel error without any call. *)
Example cancelPayment_voided_second_unit :
  some_unit_has_payments Scenario.orderO8 /\
  already_canceled Scenario.orderO8 /\
  cancelPayment (Scenario.answering (order_json Scenario.orderO8))
    (Scenario.payload Scenario.orderO8) start
  = (Throw (JsError "An error occurred in cancelPayment"), start).
Proof.
  split; [right; left; discriminate|].
  split; [left; reflexivity|].
  vm_compute. reflexivity.
Qed.

(** Outside the shortcut states both tests of [cancelPayment] are false. *)
Lemma not_canceled_tests o u rest :
  units o = u :: rest ->
  ~ already_canceled o ->
  isCanceledAndFullyRefund (order_json o) (optional VStr (order_status o))
  = Ret false /\
  is_string (optional VStr (order_status o)) OrderStatus.Voided = false.
Proof.
  intros Hunits Hnot. split.
  - unfold isCanceledAndFullyRefund.
    destruct (is_string (optional VStr (order_status o)) OrderStatus.Completed)
      eqn:Hcompleted; [|reflexivity].
    rewrite prop_order_purchaseUnits, (units_cons _ _ _ Hunits). cbn.
    rewrite prop_unit_invoiceId. cbn.
    destruct (invoiceId u) as [inv|] eqn:Hinv; [|reflexivity]. cbn.
    destruct (String.eqb_spec inv "") as [->|Hne]; [reflexivity|].
    exfalso. apply Hnot. right. split.
    + apply is_string_true in Hcompleted.
      destruct (order_status o); simpl in Hcompleted; [congruence | discriminate].
    + exists u, rest, inv. auto.
  - apply is_string_false. intros Hvoided. apply Hnot. left.
    destruct (order_status o); simpl in Hvoided; [congruence | discriminate].
Qed.

Lemma issued_app h h' calls :
  trace h' = trace h ++ calls -> issued h h' = calls.
Proof. unfold issued. intros ->. by rewrite drop_app_length. Qed.

Section Refetch.

Variable remote : list Call -> Call -> Response.

Lemma retrievePayment_calls paymentData order orderId h :
  embeddedOrder paymentData = Ret order ->
  prop order "id" = Ret orderId ->
  trace (snd (retrievePayment remote paymentData h)) = trace h ++ [GetOrder orderId].
Proof.
  intros Horder Hid.
  rewrite (retrievePayment_run remote paymentData order orderId h Horder Hid).
  destruct (remote (trace h) (GetOrder orderId)) as [result|error].
  - destruct (prop result "id") as [id|e]; [destruct (truthy id)|]; reflexivity.
  - destruct error; reflexivity.
Qed.

(** A mutation followed by the re-fetch, inside a [try] whose handler
    issues no call: the mutation is issued, and the fetch after it when
    the mutation was accepted. *)
Lemma mutate_then_refetch_calls paymentData order orderId c handler h :
  embeddedOrder paymentData = Ret order ->
  prop order "id" = Ret orderId ->
  (forall e h0, trace (snd (handler e h0)) = trace h0) ->
  trace (snd (try_catch
                (await remote c ;;; retrievePayment remote paymentData)
                handler h))
  = trace h ++ c :: match remote (trace h) c with
                    | Returns _ => [GetOrder orderId]
                    | Rejects _ => []
                    end.
Proof.
  intros Horder Hid Hhandler. unfold try_catch, bind, await.
  destruct (remote (trace h) c) as [result|error].
  - pose proof (retrievePayment_calls paymentData order orderId
                  (mkHistory (trace h ++ [c]) (logged h)) Horder Hid) as Hcalls.
    destruct (retrievePayment remote paymentData
                (mkHistory (trace h ++ [c]) (logged h))) as [[out|e] h1];
      simpl in Hcalls.
    + simpl. rewrite Hcalls. by rewrite <- app_assoc.
    + rewrite Hhandler, Hcalls. by rewrite <- app_assoc.
  - rewrite Hhandler. reflexivity.
Qed.

End Refetch.

Section RefundOrVoid.

Variable remote : list Call -> Call -> Response.

(** C3, as amended. Outside the shortcut states, [cancelPayment] issues a
    refund against the first purchase unit's first capture when the first
    purchase unit has at least one capture, and a void against the first
    purchase unit's first authorization when no purchase unit has a
    capture and the first purchase unit has at least one authorization.
    It is the first call issued; the fetch of the order follows when the
    remote service accepted it, and nothing else is called. *)
Theorem cancelPayment_refund_or_void paymentData o u rest h :
  embeds paymentData o ->
  ~ already_canceled o ->
  units o = u :: rest ->
  let refetch c :=
    c :: match remote (trace h) c with
         | Returns _ => [GetOrder (optional VStr (order_id o))]
         | Rejects _ => []
         end in
  (forall c cs,
     unit_captures u = c :: cs ->
     issued h (snd (cancelPayment remote paymentData h))
     = refetch (RefundCapturedPayment (optional VStr (capture_id c)) VUndefined)) /\
  (forall a l,
     no_unit_captured o ->
     unit_authorizations u = a :: l ->
     issued h (snd (cancelPayment remote paymentData h))
     = refetch (VoidPayment (optional VStr (authorization_id a)))).
Proof.
  intros Hembeds Hnot Hunits refetch.
  pose proof (embeddedOrder_embeds _ _ Hembeds) as Horder.
  destruct (not_canceled_tests o u rest Hunits Hnot) as [Hfully Hvoided].
  assert (Hguard : forall p, payments u = Some p ->
            cancelPayment remote paymentData h
            = try_catch
                (captured <- eval (isAlreadyCaptured (order_json o)) ;;
                 (if captured : bool then
                    capturesId <- eval (firstCaptureId (order_json o)) ;;
                    await remote (RefundCapturedPayment capturesId VUndefined)
                  else
                    id <- eval (firstAuthorizationId (order_json o)) ;;
                    await remote (VoidPayment id)) ;;;
                 retrievePayment remote paymentData)
                (fun _ => throw (JsError "An error occurred in cancelPayment")) h).
  { intros p Hp. unfold cancelPayment at 1, bind at 1 2 3 4, eval at 1 2 3 4.
    rewrite Horder, hasPayments_json, Hunits, Hp, prop_order_status, Hfully, Hvoided.
    reflexivity. }
  split.
  - intros c cs Hcaptures.
    assert (exists p, payments u = Some p) as [p Hp].
    { unfold unit_captures in Hcaptures. destruct (payments u); [eauto | discriminate]. }
    rewrite (Hguard p Hp). apply issued_app.
    assert (Hsome : some_unit_captured o).
    { unfold some_unit_captured. rewrite Hunits. left. congruence. }
    unfold bind at 2. unfold eval at 1.
    rewrite (isAlreadyCaptured_true o Hsome).
    unfold bind at 2. unfold eval at 1.
    rewrite (firstCaptureId_json o u rest c cs Hunits Hcaptures).
    apply (mutate_then_refetch_calls remote paymentData (order_json o)
             (optional VStr (order_id o)) _ _ h Horder (prop_order_id o)).
    reflexivity.
  - intros a l Hnone Hauthorizations.
    assert (exists p, payments u = Some p) as [p Hp].
    { unfold unit_authorizations in Hauthorizations.
      destruct (payments u); [eauto | discriminate]. }
    rewrite (Hguard p Hp). apply issued_app.
    unfold bind at 2. unfold eval at 1.
    rewrite (isAlreadyCaptured_false o u rest Hunits Hnone).
    unfold bind at 2. unfold eval at 1.
    rewrite (firstAuthorizationId_json o u rest a l Hunits Hauthorizations).
    apply (mutate_then_refetch_calls remote paymentData (order_json o)
             (optional VStr (order_id o)) _ _ h Horder (prop_order_id o)).
    reflexivity.
Qed.

End RefundOrVoid.

Lemma cancelPayment_refund_or_void_witness :
  issued start
    (snd (cancelPayment (Scenario.answering (order_json Scenario.orderO3))
            (Scenario.payload Scenario.orderO2) start))
  = [RefundCapturedPayment (VStr "C1") VUndefined; GetOrder (VStr "O2")] /\
  issued start
    (snd (cancelPayment (Scenario.answering (order_json Scenario.orderO3))
            (Scenario.payload Scenario.orderO1authorized) start))
  = [VoidPayment (VStr "A1"); GetOrder (VStr "O1")].
Proof.
  split.
  - refine (proj1 (cancelPayment_refund_or_void
                     (Scenario.answering (order_json Scenario.orderO3))
                     (Scenario.payload Scenario.orderO2) Scenario.orderO2
                     _ _ start _ _ _) (Scenario.capture "C1") [] _).
    + eexists. split; reflexivity.
    + intros [Hvoided | (_ & u & rest & inv & Hunits & Hinv & _)].
      * discriminate.
      * injection Hunits as <- _. discriminate.
    + reflexivity.
    + reflexivity.
  - refine (proj2 (cancelPayment_refund_or_void
                     (Scenario.answering (order_json Scenario.orderO3))
                     (Scenario.payload Scenario.orderO1authorized)
                     Scenario.orderO1authorized _ _ start _ _ _)
              (Scenario.authorization "A1") [] _ _).
    + eexists. split; reflexivity.
    + intros [Hvoided | (Hcompleted & _)]; discriminate.
    + reflexivity.
    + repeat constructor.
    + reflexivity.
Defined.

(** C3, as stated, fails twice. On O5 no purchase unit has a capture and
    no void is issued, the first unit having no authorization to void. On
    O6 the second purchase unit has a capture and no refund is issued,
    the first unit having no capture to refund. Both runs end in the
    generic cancel error without any remote call. *)
Lemma cancelPayment_neither_refund_nor_void :
  ~ cancel_refunds_or_voids (Scenario.answering (order_json Scenario.orderO3))
      (Scenario.payload Scenario.orderO5) Scenario.orderO5 start /\
  ~ cancel_refunds_or_voids (Scenario.answering (order_json Scenario.orderO3))
      (Scenario.payload Scenario.orderO6) Scenario.orderO6 start /\
  cancelPayment (Scenario.answering (order_json Scenario.orderO3))
    (Scenario.payload Scenario.orderO5) start
  = (Throw (JsError "An error occurred in cancelPayment"), start) /\
  cancelPayment (Scenario.answering (order_json Scenario.orderO3))
    (Scenario.payload Scenario.orderO6) start
  = (Throw (JsError "An error occurred in cancelPayment"), start).
Proof.
  assert (Hnot : forall o,
            order_status o <> Some OrderStatus.Voided ->
            order_status o <> Some OrderStatus.Completed ->
            ~ already_canceled o).
  { intros o Hv Hc [H | [H _]]; contradiction. }
  split; [|split; [|split; reflexivity]].
  - intros Hclaim. destruct Hclaim as [_ Hvoid].
    + eexists. split; reflexivity.
    + apply Hnot; discriminate.
    + constructor. discriminate.
    + assert (Hnone : no_unit_captured Scenario.orderO5) by repeat constructor.
      specialize (Hvoid Hnone). vm_compute in Hvoid. discriminate.
  - intros Hclaim. destruct Hclaim as [Hrefund _].
    + eexists. split; reflexivity.
    + apply Hnot; discriminate.
    + constructor. discriminate.
    + assert (Hsome : some_unit_captured Scenario.orderO6).
      { right. left. discriminate. }
      specialize (Hrefund Hsome). vm_compute in Hrefund. discriminate.
Qed.

(** ** Refund *)

Section Refund.

Variable remote : list Call -> Call -> Response.
Variable convertAmount : value -> value -> outcome value.

(** C4, as amended. When no capture exists on any purchase unit,
    [refundPayment] fails without any remote call, whatever the amount:
    with the uncaptured-payment error when the first purchase unit has a
    payments sub-object, and with the generic refund error when there is
    no purchase unit or the first one has no payments sub-object. *)
Theorem refundPayment_uncaptured paymentData o h :
  embeds paymentData o ->
  no_unit_captured o ->
  (first_unit_has_payments o ->
   refundPayment remote convertAmount paymentData h
   = (Throw (JsError "Cannot refund an uncaptured payment"), h)) /\
  (~ first_unit_has_payments o ->
   refundPayment remote convertAmount paymentData h
   = (Throw (JsError "An error occurred in refundPayment"), h)).
Proof.
  intros Hembeds Hnone.
  pose proof (embeddedOrder_embeds _ _ Hembeds) as Horder.
  split.
  - intros Hpayments.
    destruct Hpayments as (u & rest & p & Hunits & Hp).
    unfold refundPayment, bind, eval.
    rewrite Horder, hasPayments_json, Hunits, Hp.
    rewrite prop_order_purchaseUnits, (units_cons _ _ _ Hunits). cbn.
    rewrite (isAlreadyCaptured_false o u rest Hunits Hnone). reflexivity.
  - intros Hpayments.
    unfold refundPayment, bind, eval.
    rewrite Horder, hasPayments_json.
    destruct (units o) as [|u rest] eqn:Hunits; [reflexivity|].
    destruct (payments u) as [p|] eqn:Hp; [|reflexivity].
    exfalso. apply Hpayments. exists u, rest, p. auto.
Qed.

End Refund.

Lemma refundPayment_uncaptured_witness :
  let run := refundPayment (Scenario.answering (order_json Scenario.orderO3))
               Scenario.formatAmount
               (Scenario.refundInput Scenario.orderO1authorized 5) start in
  (first_unit_has_payments Scenario.orderO1authorized ->
   run = (Throw (JsError "Cannot refund an uncaptured payment"), start)) /\
  (~ first_unit_has_payments Scenario.orderO1authorized ->
   run = (Throw (JsError "An error occurred in refundPayment"), start)).
Proof.
  apply (refundPayment_uncaptured (Scenario.answering (order_json Scenario.orderO3))
           Scenario.formatAmount
           (Scenario.refundInput Scenario.orderO1authorized 5)
           Scenario.orderO1authorized start).
  - eexists. split; reflexivity.
  - repeat constructor.
Defined.

(** C4, as stated, fails on the freshly created order O1, whose purchase
    unit has no payments sub-object: no capture exists, and the refund of
    5.00 fails with the generic refund error instead. *)
Lemma refund_without_payments_generic_error :
  ~ refund_uncaptured_fails (Scenario.answering (order_json Scenario.orderO1))
      Scenario.formatAmount (Scenario.refundInput Scenario.orderO1 5)
      Scenario.orderO1 start /\
  refundPayment (Scenario.answering (order_json Scenario.orderO1))
    Scenario.formatAmount (Scenario.refundInput Scenario.orderO1 5) start
  = (Throw (JsError "An error occurred in refundPayment"), start).
Proof.
  split; [|reflexivity].
  intros Hclaim.
  assert (Hrun : refundPayment (Scenario.answering (order_json Scenario.orderO1))
                   Scenario.formatAmount (Scenario.refundInput Scenario.orderO1 5)
                   start
                 = (Throw (JsError "Cannot refund an uncaptured payment"), start)).
  { apply Hclaim.
    - eexists. split; reflexivity.
    - repeat constructor. }
  vm_compute in Hrun. discriminate.
Qed.

(** ** Capture *)

Lemma hasAuthorizations_none o :
  first_authorization o = None -> hasAuthorizations (order_json o) = Ret false.
Proof.
  unfold first_authorization. rewrite hasAuthorizations_json.
  destruct (units o) as [|u rest]; [reflexivity|].
  destruct (unit_authorizations u); [reflexivity | discriminate].
Qed.

Lemma first_authorization_some o a :
  first_authorization o = Some a ->
  exists u rest l, units o = u :: rest /\ unit_authorizations u = a :: l.
Proof.
  unfold first_authorization.
  destruct (units o) as [|u rest]; [discriminate|].
  destruct (unit_authorizations u) as [|a' l] eqn:Hl; [discriminate|].
  intros [= ->]. eauto.
Qed.

Section Capture.

Variable remote : list Call -> Call -> Response.

(** C5, as amended. [capturePayment] fails with the generic capture
    error, calling nothing, when the first purchase unit of the embedded
    order has no authorization (no purchase unit, no payments sub-object,
    or no authorization in it). Otherwise it requests a capture against
    the first authorization's identifier. When the remote service rejects
    it, the error is logged and the generic capture error thrown. When it
    accepts, the order is fetched again, and nothing else is called: the
    fetched order is returned, as the output's [paypalOrder] with its
    identifier as [paypalOrderId], when the fetch answers with an
    identified order; when the fetch fails, its error is logged and the
    generic capture error thrown. *)
Theorem capturePayment_first_authorization paymentData o h :
  embeds paymentData o ->
  let failure := JsError "An error occurred in capturePayment" in
  let orderId := optional VStr (order_id o) in
  (first_authorization o = None ->
   capturePayment remote paymentData h = (Throw failure, h)) /\
  (forall a,
     first_authorization o = Some a ->
     let capture := CaptureAuthorizedPayment (optional VStr (authorization_id a)) in
     match remote (trace h) capture with
     | Rejects error =>
         capturePayment remote paymentData h
         = (Throw failure,
            mkHistory (trace h ++ [capture]) (logged h ++ [LogError error]))
     | Returns _ =>
         issued h (snd (capturePayment remote paymentData h))
         = [capture; GetOrder orderId] /\
         (forall result id,
            remote (trace h ++ [capture]) (GetOrder orderId) = Returns result ->
            prop result "id" = Ret id -> truthy id = true ->
            exists output,
              capturePayment remote paymentData h
              = (Ret output, called (called h capture) (GetOrder orderId)) /\
              output = fetched paymentData id result /\
              carries output result id) /\
         (forall e h1,
            retrievePayment remote paymentData (called h capture) = (Throw e, h1) ->
            capturePayment remote paymentData h
            = (Throw failure, mkHistory (trace h1) (logged h1 ++ [LogError e])))
     end).
Proof.
  intros Hembeds failure orderId.
  pose proof (embeddedOrder_embeds _ _ Hembeds) as Horder.
  split.
  - intros Hnone. unfold capturePayment, bind, eval.
    rewrite Horder, (hasAuthorizations_none o Hnone). reflexivity.
  - intros a Hsome capture.
    destruct (first_authorization_some o a Hsome) as (u & rest & l & Hunits & Hl).
    assert (Hrun : capturePayment remote paymentData h
                   = try_catch
                       (await remote capture ;;; retrievePayment remote paymentData)
                       (fun error =>
                          log_error (LogError error) ;;; throw failure) h).
    { unfold capturePayment, bind at 1 2 3, eval.
      rewrite Horder, hasAuthorizations_json, Hunits, Hl.
      rewrite (firstAuthorizationId_json o u rest a l Hunits Hl). reflexivity. }
    destruct (remote (trace h) capture) as [accepted|error] eqn:Hremote.
    + split; [|split].
      * apply issued_app. rewrite Hrun.
        rewrite (mutate_then_refetch_calls remote paymentData (order_json o)
                   orderId capture _ h Horder (prop_order_id o)).
        -- by rewrite Hremote.
        -- reflexivity.
      * intros result id Hfetch Hid Htruthy.
        exists (fetched paymentData id result).
        split; [|split; [reflexivity | apply fetched_carries]].
        rewrite Hrun.
        unfold try_catch, bind at 1, await. rewrite Hremote.
        rewrite (retrievePayment_run remote paymentData (order_json o) orderId
                   _ Horder (prop_order_id o)).
        cbn [trace]. rewrite Hfetch, Hid, Htruthy. reflexivity.
      * intros e h1 Hfetch. rewrite Hrun.
        unfold try_catch, bind at 1, await. rewrite Hremote.
        unfold called in Hfetch. rewrite Hfetch. reflexivity.
    + rewrite Hrun. unfold try_catch, bind, await. rewrite Hremote. reflexivity.
Qed.

End Capture.

Lemma capturePayment_first_authorization_witness :
  let remote := Scenario.answering (order_json Scenario.orderO1captured) in
  let paymentData := Scenario.payload Scenario.orderO1authorized in
  exists output,
    capturePayment remote paymentData start
    = (Ret output,
       called (called start (CaptureAuthorizedPayment (VStr "A1")))
         (GetOrder (VStr "O1"))) /\
    output = fetched paymentData (VStr "O1") (order_json Scenario.orderO1captured) /\
    carries output (order_json Scenario.orderO1captured) (VStr "O1").
Proof.
  refine (proj1 (proj2 (proj2 (capturePayment_first_authorization
                   (Scenario.answering (order_json Scenario.orderO1captured))
                   (Scenario.payload Scenario.orderO1authorized)
                   Scenario.orderO1authorized start _)
                   (Scenario.authorization "A1") _))
            (order_json Scenario.orderO1captured) (VStr "O1") _ _ _).
  - eexists. split; reflexivity.
  - reflexivity.
  - reflexivity.
  - reflexivity.
  - reflexivity.
Defined.

(** C5, as stated, fails when the capture of A1 is accepted and the
    fetch after it comes back without an identifier: no order is
    returned, [capturePayment] throws the generic capture error with both
    calls issued and the error of the fetch logged. *)
Lemma capturePayment_accepted_then_fails :
  ~ capture_returns_order Scenario.forgetting
      (Scenario.payload Scenario.orderO1authorized)
      Scenario.orderO1authorized start /\
  capturePayment Scenario.forgetting
    (Scenario.payload Scenario.orderO1authorized) start
  = (Throw (JsError "An error occurred in capturePayment"),
     mkHistory [CaptureAuthorizedPayment (VStr "A1"); GetOrder (VStr "O1")]
       [LogError (JsError "Initialize payment failed.")]).
Proof.
  split; [|vm_compute; reflexivity].
  intros Hclaim.
  destruct (Hclaim) with (a := Scenario.authorization "A1") (accepted := VUndefined)
    as (output & h' & Hrun & _).
  - eexists. split; reflexivity.
  - reflexivity.
  - reflexivity.
  - vm_compute in Hrun. discriminate Hrun.
Qed.

(** ** Options *)

Lemma prop_options options k : prop (VObj options) k = Ret (option_value options k).
Proof. reflexivity. Qed.

(** C6, as amended. The constructor fails with a configuration error
    exactly when the client identifier, the client secret or the
    environment is missing; given the three, it accepts any environment
    and selects the sandbox for "sandbox" and production for every other
    value. The static [validateOptions] fails with a configuration error
    exactly when the client identifier or the client secret is missing or
    the environment is neither "production" nor "sandbox". *)
Theorem options_checked (options : gmap string value) :
  let id := option_value options "oAuthClientId" in
  let secret := option_value options "oAuthClientSecret" in
  let env := option_value options "environment" in
  (truthy id = false \/ truthy secret = false \/ truthy env = false ->
   exists e, constructor options = Throw e /\ configuration_error e) /\
  (truthy id = true -> truthy secret = true -> truthy env = true ->
   constructor options
   = Ret (mkClientConfig id secret 0
            (if is_string env "sandbox" then Sandbox else Production))) /\
  (truthy id = false \/ truthy secret = false \/
   (env <> VStr "production" /\ env <> VStr "sandbox") ->
   exists e, validateOptions options = Throw e /\ configuration_error e) /\
  (truthy id = true -> truthy secret = true ->
   env = VStr "production" \/ env = VStr "sandbox" ->
   validateOptions options = Ret tt).
Proof.
  intros id secret env. unfold constructor, validateOptions.
  rewrite !prop_options. fold id secret env. cbn [and_then].
  repeat split.
  - intros Hmissing. eexists. split; [|eexists; reflexivity].
    destruct Hmissing as [-> | [-> | ->]]; cbn;
      rewrite ?andb_false_r; reflexivity.
  - intros -> -> ->. reflexivity.
  - intros [-> | [Hsecret | [Hproduction Hsandbox]]].
    + eexists. split; [reflexivity | eexists; reflexivity].
    + destruct (truthy id); cbn; rewrite ?Hsecret; cbn;
        eexists; (split; [reflexivity | eexists; reflexivity]).
    + apply is_string_false in Hproduction, Hsandbox.
      rewrite Hproduction, Hsandbox.
      destruct (truthy id), (truthy secret); cbn;
        eexists; (split; [reflexivity | eexists; reflexivity]).
  - intros -> -> Henv. cbn.
    destruct Henv as [-> | ->]; reflexivity.
Qed.

(** C6, as stated, fails on complete options whose environment is
    "staging": the constructor builds a production client. *)
Lemma constructor_accepts_staging :
  ~ construction_checks_environment Scenario.stagingOptions /\
  constructor Scenario.stagingOptions
  = Ret (mkClientConfig (VStr "client") (VStr "secret") 0 Production).
Proof.
  split; [|reflexivity].
  intros Hclaim. destruct Hclaim as (e & Hthrow & _).
  - right. right. right. split; discriminate.
  - discriminate.
Qed.

(** ** What a successful operation returns *)

(** Inversion of a computation that returned. *)
Lemma bind_returned {A B} (c : M A) (k : A -> M B) h b h' :
  bind c k h = (Ret b, h') ->
  exists a h1, c h = (Ret a, h1) /\ k a h1 = (Ret b, h').
Proof.
  unfold bind. destruct (c h) as [[a|e] h1]; [eauto | discriminate].
Qed.

Lemma eval_returned {A} (o : outcome A) h a h' :
  eval o h = (Ret a, h') -> o = Ret a /\ h' = h.
Proof. unfold eval. intros [= -> ->]. auto. Qed.

Lemma ret_returned {A} (x : A) h a h' :
  ret x h = (Ret a, h') -> a = x /\ h' = h.
Proof. unfold ret. intros [= -> ->]. auto. Qed.

Lemma try_catch_returned {A} (body : M A) handler h a h' :
  try_catch body handler h = (Ret a, h') ->
  body h = (Ret a, h') \/
  exists e h1, body h = (Throw e, h1) /\ handler e h1 = (Ret a, h').
Proof.
  unfold try_catch. destruct (body h) as [[x|e] h1]; [auto | eauto].
Qed.

Lemma log_then_throw_returned {A} entry e h (a : A) h' :
  (log_error entry ;;; throw e) h = (Ret a, h') -> False.
Proof. discriminate. Qed.

Ltac returned :=
  repeat match goal with
    | H : bind _ _ _ = (Ret _, _) |- _ =>
        let a := fresh "a" in
        let h1 := fresh "h" in
        let Hc := fresh "Hc" in
        apply bind_returned in H as (a & h1 & Hc & H)
    | H : eval _ _ = (Ret _, _) |- _ => apply eval_returned in H as [H ->]
    | H : ret _ _ = (Ret _, _) |- _ =>
        apply ret_returned in H as [H ->]; try discriminate H;
        try (injection H as H); subst
    | H : throw _ _ = (Ret _, _) |- _ => discriminate H
    | H : (log_error _ ;;; throw _) _ = (Ret _, _) |- _ => discriminate H
    | H : try_catch _ _ _ = (Ret _, _) |- _ =>
        let e := fresh "e" in
        let h1 := fresh "h" in
        let Hc := fresh "Hc" in
        apply try_catch_returned in H as [H | (e & h1 & Hc & H)]
    | H : (if ?b then _ else _) _ = (Ret _, _) |- _ => destruct b eqn:?
    | H : match ?x with _ => _ end _ = (Ret _, _) |- _ => destruct x eqn:?
    end.

Section Success.

Variable remote : list Call -> Call -> Response.
Variable convertAmount : value -> value -> outcome value.

Lemma await_returned c h v h' :
  await remote c h = (Ret v, h') ->
  remote (trace h) c = Returns v /\ h' = called h c.
Proof.
  unfold await, called. destruct (remote (trace h) c); intros [= <- <-]; auto.
Qed.

Lemma retrievePayment_answered paymentData h out h' :
  retrievePayment remote paymentData h = (Ret out, h') ->
  exists id result,
    out = fetched paymentData id result /\ answered remote result id.
Proof.
  intros Hrun.
  destruct (retrievePayment_success remote paymentData h out h' Hrun)
    as (orderId & result & id & Hremote & Hid & Htruthy & -> & _).
  exists id, result. repeat split; try assumption.
  exists (trace h), (GetOrder orderId). eauto.
Qed.

Lemma prop_fetched_data paymentData id result :
  prop (fetched paymentData id result) "data"
  = Ret (VObj (withOrder paymentData id result)).
Proof. unfold fetched, prop. by rewrite lookup_singleton_eq. Qed.

Lemma returned_fetch paymentData h out h' :
  retrievePayment remote paymentData h = (Ret out, h') ->
  exists id result,
    prop out "data" = Ret (VObj (withOrder paymentData id result)) /\
    answered remote result id.
Proof.
  intros Hrun.
  apply retrievePayment_answered in Hrun as (id & result & -> & Hanswered).
  exists id, result. split; [apply prop_fetched_data | assumption].
Qed.

(** Every successful operation returns, under [data], its input with the
    fetched or created order and that order's identifier set. *)
Lemma run_success op paymentData h out h' :
  run remote convertAmount op paymentData h = (Ret out, h') ->
  exists id result,
    prop out "data" = Ret (VObj (withOrder paymentData id result)) /\
    answered remote result id.
Proof.
  destruct op; unfold run; intros Hrun.
  - (* initiatePayment *)
    unfold initiatePayment in Hrun. returned.
    apply await_returned in Hc3 as [Hremote ->].
    exists a4, a3. split.
    + unfold prop. by rewrite lookup_insert_eq.
    + repeat split; try assumption. eauto 6.
  - eapply returned_fetch, Hrun.
  - unfold authorizePayment in Hrun. returned.
    apply retrievePayment_answered in Hc1 as (id & result & -> & Hanswered).
    rewrite prop_fetched_data in Hc2. injection Hc2 as <-.
    unfold withOrder, prop in Hc3. rewrite lookup_insert_eq in Hc3.
    injection Hc3 as <-.
    destruct Hanswered as (Hid & Hanswered). rewrite Hid in Hc4.
    injection Hc4 as <-.
    exists id, result. split; [|split; assumption].
    unfold prop, withOrder.
    rewrite lookup_insert_ne; [|done]. rewrite lookup_singleton_eq. cbn.
    by rewrite insert_insert_ne.
  - unfold capturePayment in Hrun. returned.
    eapply returned_fetch, Hrun.
  - unfold cancelPayment in Hrun. returned.
    all: eapply returned_fetch, Hrun.
  - unfold refundPayment in Hrun. returned.
    eapply returned_fetch, Hrun.
  - unfold updatePayment in Hrun. returned.
    eapply returned_fetch, Hrun.
Qed.

End Success.

Section Returned.

Variable remote : list Call -> Call -> Response.
Variable convertAmount : value -> value -> outcome value.

(** C7, as amended. The data a successful operation returns is the
    operation's whole input object with [paypalOrder] and [paypalOrderId]
    set: every other key of the input object is there with its value and
    no other key is added. The payload the operation was given, the
    input's [data] field, is one of these keys and so comes back nested
    under [data]. [deletePayment] returns its input as it is. *)
Theorem returned_data_is_input_with_order op paymentData h out h' :
  run remote convertAmount op paymentData h = (Ret out, h') ->
  (exists returned : gmap string value,
     prop out "data" = Ret (VObj returned) /\
     round_tripped paymentData returned /\
     returned !! "data" = paymentData !! "data") /\
  deletePayment paymentData h = (Ret (VObj paymentData), h).
Proof.
  intros Hrun. split; [|reflexivity].
  destruct (run_success remote convertAmount op paymentData h out h' Hrun)
    as (id & result & Hdata & _).
  exists (withOrder paymentData id result).
  assert (Hframe : round_tripped paymentData (withOrder paymentData id result)).
  { intros k Horder Hid. unfold withOrder.
    rewrite lookup_insert_ne; [|congruence].
    rewrite lookup_insert_ne; [|congruence]. reflexivity. }
  split; [assumption|]. split; [assumption|].
  apply Hframe; discriminate.
Qed.

(** C10. A successful [initiatePayment], [retrievePayment],
    [authorizePayment], [capturePayment], [cancelPayment],
    [refundPayment] or [updatePayment] returns data whose [paypalOrder]
    has an identifier, and whose [paypalOrderId] is that identifier. The
    identifier is truthy (not the empty string), and the order is the
    remote service's answer to a fetch or to the creation: without an
    identifier in the answer there is no success. *)
Theorem returned_order_identified op paymentData h out h' :
  run remote convertAmount op paymentData h = (Ret out, h') ->
  exists (returned : gmap string value) order id,
    prop out "data" = Ret (VObj returned) /\
    returned !! "paypalOrder" = Some order /\
    returned !! "paypalOrderId" = Some id /\
    prop order "id" = Ret id /\
    truthy id = true /\ id <> VStr "" /\
    answered remote order id.
Proof.
  intros Hrun.
  destruct (run_success remote convertAmount op paymentData h out h' Hrun)
    as (id & result & Hdata & Hanswered).
  exists (withOrder paymentData id result), result, id.
  pose proof Hanswered as (Hid & Htruthy & _).
  split; [assumption|]. unfold withOrder.
  split; [by rewrite lookup_insert_eq|].
  split; [rewrite lookup_insert_ne; [|done]; by rewrite lookup_insert_eq|].
  split; [assumption|]. split; [assumption|].
  split; [|assumption].
  intros ->. discriminate.
Qed.

End Returned.

Lemma returned_data_is_input_with_order_witness :
  (exists returned : gmap string value,
     prop (fetched (Scenario.payloadWithCart Scenario.orderO1) (VStr "O1")
             (order_json Scenario.orderO1)) "data"
     = Ret (VObj returned) /\
     round_tripped (Scenario.payloadWithCart Scenario.orderO1) returned /\
     returned !! "data" = Scenario.payloadWithCart Scenario.orderO1 !! "data") /\
  deletePayment (Scenario.payloadWithCart Scenario.orderO1) start
  = (Ret (VObj (Scenario.payloadWithCart Scenario.orderO1)), start).
Proof.
  apply (returned_data_is_input_with_order
           (Scenario.answering (order_json Scenario.orderO1))
           Scenario.formatAmount RetrievePayment
           (Scenario.payloadWithCart Scenario.orderO1) start
           (fetched (Scenario.payloadWithCart Scenario.orderO1) (VStr "O1")
              (order_json Scenario.orderO1))
           (called start (GetOrder (VStr "O1")))).
  reflexivity.
Defined.

(** C7, as stated, fails for [retrievePayment] on a payload that carries
    a [cart_id]: the returned payload has no [cart_id], and has the whole
    given payload under a new key [data]. *)
Lemma retrievePayment_nests_payload :
  ~ payload_round_tripped (Scenario.answering (order_json Scenario.orderO1))
      Scenario.formatAmount RetrievePayment
      (Scenario.payloadWithCart Scenario.orderO1) start.
Proof.
  intros Hclaim.
  assert (Hkept : round_tripped (Scenario.cartData Scenario.orderO1)
                    (withOrder (Scenario.payloadWithCart Scenario.orderO1)
                       (VStr "O1") (order_json Scenario.orderO1))).
  { apply (Hclaim (fetched (Scenario.payloadWithCart Scenario.orderO1)
                     (VStr "O1") (order_json Scenario.orderO1))
                  (called start (GetOrder (VStr "O1"))));
      reflexivity. }
  specialize (Hkept "cart_id").
  vm_compute in Hkept.
  assert (Hcart : @None value = Some (VStr "cart_1")).
  { apply Hkept; discriminate. }
  discriminate Hcart.
Qed.

Lemma returned_order_identified_witness :
  exists (returned : gmap string value) order id,
    prop (fetched (Scenario.payload Scenario.orderO1) (VStr "O1")
            (order_json Scenario.orderO1)) "data"
    = Ret (VObj returned) /\
    returned !! "paypalOrder" = Some order /\
    returned !! "paypalOrderId" = Some id /\
    prop order "id" = Ret id /\
    truthy id = true /\ id <> VStr "" /\
    answered (Scenario.answering (order_json Scenario.orderO1)) order id.
Proof.
  apply (returned_order_identified
           (Scenario.answering (order_json Scenario.orderO1))
           Scenario.formatAmount RetrievePayment
           (Scenario.payload Scenario.orderO1) start
           (fetched (Scenario.payload Scenario.orderO1) (VStr "O1")
              (order_json Scenario.orderO1))
           (called start (GetOrder (VStr "O1")))).
  reflexivity.
Defined.

(** ** Errors of the fetch *)

(** Whatever goes wrong in [retrievePayment], what it throws is one of
    two fixed errors, both worded after the initiation. *)
Lemma retrievePayment_throws remote paymentData h e h' :
  retrievePayment remote paymentData h = (Throw e, h') ->
  e = JsError "Initialize payment failed" \/
  e = JsError "Initialize payment failed.".
Proof.
  unfold retrievePayment, bind, try_catch, eval, await, ret, throw, log_error.
  destruct (embeddedOrder paymentData) as [order|e0]; cbn.
  - destruct (prop order "id") as [orderId|e1]; cbn.
    + destruct (remote (trace h) (GetOrder orderId)) as [result|error]; cbn.
      * destruct (prop result "id") as [id|e2]; cbn.
        -- destruct (truthy id); cbn; intros [= <- <-]; auto.
        -- destruct e2; cbn; intros [= <- <-]; auto.
      * destruct error; cbn; intros [= <- <-]; auto.
    + destruct e1; cbn; intros [= <- <-]; auto.
  - destruct e0; cbn; intros [= <- <-]; auto.
Qed.

(** C8 on a failing input. The remote service rejects the fetch of O1
    with an [ApiError] of status 404: [retrievePayment] logs the status
    code and the headers and throws the error "Initialize payment
    failed", which is word for word the error [initiatePayment] throws
    when the creation is rejected; it does not name the retrieval. When
    the rejection is not an [ApiError], or the answer has no identifier,
    nothing is logged and the error is "Initialize payment failed.". *)
Theorem retrievePayment_error_names_initiation :
  let notFound := ApiError 404 (VObj ∅) in
  retrievePayment (Scenario.rejecting notFound)
    (Scenario.payload Scenario.orderO1) start
  = (Throw (JsError "Initialize payment failed"),
     mkHistory [GetOrder (VStr "O1")]
       [LogStatusCode 404; LogHeaders (VObj ∅)]) /\
  fst (initiatePayment (Scenario.rejecting notFound) Scenario.formatAmount
         (Scenario.initiateInput 10 "USD") start)
  = Throw (JsError "Initialize payment failed") /\
  retrievePayment (Scenario.rejecting (Failure "timeout"))
    (Scenario.payload Scenario.orderO1) start
  = (Throw (JsError "Initialize payment failed."),
     mkHistory [GetOrder (VStr "O1")] []) /\
  retrievePayment (Scenario.answering (VObj ∅))
    (Scenario.payload Scenario.orderO1) start
  = (Throw (JsError "Initialize payment failed."),
     mkHistory [GetOrder (VStr "O1")] []).
Proof. repeat split; vm_compute; reflexivity. Qed.

(** ** The refund of an order captured on a later purchase unit *)

Lemma refundPayment_first_unit_uncaptured remote convertAmount
    paymentData o u rest p h :
  embeds paymentData o ->
  units o = u :: rest ->
  payments u = Some p ->
  unit_captures u = [] ->
  Exists (fun u' => unit_captures u' <> []) rest ->
  refundPayment remote convertAmount paymentData h = (Throw TypeError, h).
Proof.
  intros Hembeds Hunits Hp Hnone Hlater.
  pose proof (embeddedOrder_embeds _ _ Hembeds) as Horder.
  assert (Hsome : some_unit_captured o).
  { unfold some_unit_captured. rewrite Hunits. right. exact Hlater. }
  assert (Hid : refundCaptureId (unit_json u) = Throw TypeError).
  { unfold refundCaptureId. rewrite prop_unit_payments, Hp. cbn.
    change (nullish (payments_json p)) with false. cbn.
    rewrite prop_payments_captures.
    unfold unit_captures in Hnone. rewrite Hp in Hnone.
    destruct (captures p) as [cs|]; [subst cs|]; reflexivity. }
  unfold refundPayment, bind, eval.
  rewrite Horder, hasPayments_json, Hunits, Hp.
  rewrite prop_order_purchaseUnits, (units_cons _ _ _ Hunits). cbn.
  rewrite (isAlreadyCaptured_true o Hsome). cbn.
  rewrite Hid. reflexivity.
Qed.

(** C9. There is a session payload, the one of order O6, whose first
    purchase unit has a payments sub-object without captures while its
    second purchase unit has a capture, on which [refundPayment] passes
    its captured-payment check and then throws a raw [TypeError], outside
    any [try]: whatever the remote service and the amount conversion, no
    call is issued, nothing is logged, and the error is neither the
    uncaptured-payment error nor the generic refund error. *)
Theorem refundPayment_raw_type_error :
  exists paymentData o u rest p,
    embeds paymentData o /\
    units o = u :: rest /\
    payments u = Some p /\ captures p = None /\
    Exists (fun u' => unit_captures u' <> []) rest /\
    isAlreadyCaptured (order_json o) = Ret true /\
    forall remote convertAmount h,
      refundPayment remote convertAmount paymentData h = (Throw TypeError, h) /\
      TypeError <> JsError "Cannot refund an uncaptured payment" /\
      TypeError <> JsError "An error occurred in refundPayment".
Proof.
  exists (Scenario.refundInput Scenario.orderO6 5), Scenario.orderO6.
  do 3 eexists.
  assert (Hembeds : embeds (Scenario.refundInput Scenario.orderO6 5) Scenario.orderO6).
  { eexists. split; reflexivity. }
  assert (Hlater : Exists (fun u' => unit_captures u' <> [])
                     (tl (units Scenario.orderO6))).
  { left. discriminate. }
  split; [exact Hembeds|].
  split; [reflexivity|]. split; [reflexivity|]. split; [reflexivity|].
  split; [exact Hlater|].
  split; [apply isAlreadyCaptured_true; right; exact Hlater|].
  intros remote convertAmount h.
  split; [|split; discriminate].
  eapply refundPayment_first_unit_uncaptured;
    [exact Hembeds | reflexivity | reflexivity | reflexivity | exact Hlater].
Qed.

(** ** The scenarios of the specification, run *)

Example status_rows :
  map paymentSessionStatus
    [VStr "CREATED"; VStr "SAVED"; VStr "APPROVED"; VStr "PAYER_ACTION_REQUIRED";
     VStr "VOIDED"; VStr "COMPLETED"; VStr "PARTIALLY_COMPLETED"; VUndefined]
  = ["pending"; "requires_more"; "requires_more"; "requires_more";
     "canceled"; "authorized"; "pending"; "pending"].
Proof. reflexivity. Qed.

(** Scenario A: the initiation of 10.00 USD creates O1, whose status
    "created" is reported as pending. *)
Example scenario_A :
  let remote := Scenario.answering (order_json Scenario.orderO1) in
  let input := Scenario.initiateInput 10 "USD" in
  initiatePayment remote Scenario.formatAmount input start
  = (Ret (VObj (<["data" := VObj (withOrder input (VStr "O1")
                                   (order_json Scenario.orderO1))]>
                  {[ "id" := VStr "O1" ]})),
     called start (CreateOrder (VObj
       (<["purchaseUnits" :=
            VArr [VObj {[ "amount" :=
                    VObj (<["currencyCode" := VStr "USD"]>
                            {[ "value" := VNum 10 ]}) ]}]]>
          {[ "intent" := VStr "AUTHORIZE" ]})))) /\
  fst (getPaymentStatus remote (Scenario.payload Scenario.orderO1) start)
  = Ret (VObj {[ "status" := VStr "pending" ]}).
Proof. split; vm_compute; reflexivity. Qed.

(** Scenario B: the capture of O1 goes against A1, and the order fetched
    afterwards, completed, is reported as authorized. *)
Example scenario_B :
  let remote := Scenario.answering (order_json Scenario.orderO1captured) in
  trace (snd (capturePayment remote
                (Scenario.payload Scenario.orderO1authorized) start))
  = [CaptureAuthorizedPayment (VStr "A1"); GetOrder (VStr "O1")] /\
  fst (getPaymentStatus remote (Scenario.payload Scenario.orderO1captured) start)
  = Ret (VObj {[ "status" := VStr "authorized" ]}).
Proof. split; vm_compute; reflexivity. Qed.

(** Scenario C: the cancellation of the captured order O2 refunds C1. *)
Example scenario_C :
  trace (snd (cancelPayment (Scenario.answering (order_json Scenario.orderO3))
                (Scenario.payload Scenario.orderO2) start))
  = [RefundCapturedPayment (VStr "C1") VUndefined; GetOrder (VStr "O2")].
Proof. vm_compute. reflexivity. Qed.

(** Scenario D: the cancellation of the voided order O3 fetches it and
    issues nothing else; what it fetched is reported as canceled. *)
Example scenario_D :
  let remote := Scenario.answering (order_json Scenario.orderO3) in
  trace (snd (cancelPayment remote (Scenario.payload Scenario.orderO3) start))
  = [GetOrder (VStr "O3")] /\
  fst (getPaymentStatus remote (Scenario.payload Scenario.orderO3) start)
  = Ret (VObj {[ "status" := VStr "canceled" ]}).
Proof. split; vm_compute; reflexivity. Qed.

(** Scenario E: the refund of 5.00 on an order without captures. *)
Example scenario_E :
  refundPayment (Scenario.answering (order_json Scenario.orderO1authorized))
    Scenario.formatAmount
    (Scenario.refundInput Scenario.orderO1authorized 5) start
  = (Throw (JsError "Cannot refund an uncaptured payment"), start).
Proof. vm_compute. reflexivity. Qed.

(** * Further properties of the operations *)

(** ** Inversion of a computation that threw *)

Lemma bind_threw {A B} (c : M A) (k : A -> M B) h e h' :
  bind c k h = (Throw e, h') ->
  c h = (Throw e, h') \/
  exists a h1, c h = (Ret a, h1) /\ k a h1 = (Throw e, h').
Proof.
  unfold bind. destruct (c h) as [[a|e0] h1]; intros Hk; [right; eauto | left; congruence].
Qed.

Lemma eval_threw {A} (o : outcome A) h e h' :
  eval o h = (Throw e, h') -> o = Throw e /\ h' = h.
Proof. unfold eval. intros [= -> ->]. auto. Qed.

Lemma throw_threw {A} e0 h e h' :
  @throw A e0 h = (Throw e, h') -> e = e0 /\ h' = h.
Proof. unfold throw. intros [= -> ->]. auto. Qed.

Lemma try_catch_threw {A} (body : M A) handler h e h' :
  try_catch body handler h = (Throw e, h') ->
  exists e0 h1, body h = (Throw e0, h1) /\ handler e0 h1 = (Throw e, h').
Proof.
  unfold try_catch. destruct (body h) as [[x|e0] h1]; [discriminate | eauto].
Qed.

Lemma log_then_throw_threw {A} entry e0 h e h' :
  (log_error entry ;;; @throw A e0) h = (Throw e, h') -> e = e0.
Proof. intros [= <- _]. reflexivity. Qed.

(** ** Pure reads throw nothing but a [TypeError] *)

Lemma type_errors_ret {A} (a : A) : type_errors_only (Ret a).
Proof. intros e. discriminate. Qed.

Lemma type_errors_prop v k : type_errors_only (prop v k).
Proof. intros e. apply prop_throws. Qed.

Lemma type_errors_optprop v k : type_errors_only (optprop v k).
Proof. intros e. destruct v; simpl; congruence. Qed.

Lemma type_errors_elem0 v : type_errors_only (elem0 v).
Proof. intros e. destruct v; simpl; congruence. Qed.

Lemma type_errors_and_then {A B} (o : outcome A) (k : A -> outcome B) :
  type_errors_only o -> (forall a, type_errors_only (k a)) ->
  type_errors_only (and_then o k).
Proof.
  intros Ho Hk e. destruct o as [a|e0]; simpl.
  - apply Hk.
  - intros [= <-]. by apply Ho.
Qed.

Lemma type_errors_if {A} (b : bool) (x y : outcome A) :
  type_errors_only x -> type_errors_only y ->
  type_errors_only (if b then x else y).
Proof. destruct b; auto. Qed.

Lemma type_errors_some_elem cb elems :
  (forall x, type_errors_only (cb x)) -> type_errors_only (some_elem cb elems).
Proof.
  intros Hcb. induction elems as [|x rest IH]; simpl.
  - apply type_errors_ret.
  - intros e. destruct (cb x) as [r|e0] eqn:Hx.
    + destruct (truthy r); [discriminate | apply IH].
    + intros [= <-]. by apply (Hcb x).
Qed.

Lemma type_errors_array_some v cb :
  (forall x, type_errors_only (cb x)) -> type_errors_only (array_some v cb).
Proof.
  intros Hcb. destruct v; simpl; try (intros e; congruence).
  by apply type_errors_some_elem.
Qed.

Create HintDb reads discriminated.
#[local] Hint Resolve type_errors_ret type_errors_prop type_errors_optprop
  type_errors_elem0 type_errors_and_then type_errors_if
  type_errors_some_elem type_errors_array_some : reads.

Ltac reads_only := unfold type_errors_only; intros; eauto 20 with reads.

Lemma type_errors_embeddedOrder paymentData :
  type_errors_only (embeddedOrder paymentData).
Proof. unfold embeddedOrder. auto 10 with reads. Qed.

Lemma type_errors_capturesLength pu : type_errors_only (capturesLength pu).
Proof. unfold capturesLength. auto 10 with reads. Qed.

Lemma type_errors_hasPayments order : type_errors_only (hasPayments order).
Proof. unfold hasPayments. auto 20 with reads. Qed.

Lemma type_errors_hasAuthorizations order :
  type_errors_only (hasAuthorizations order).
Proof. unfold hasAuthorizations. auto 20 with reads. Qed.

Lemma type_errors_isAlreadyCaptured order :
  type_errors_only (isAlreadyCaptured order).
Proof.
  unfold isAlreadyCaptured.
  apply type_errors_and_then; [auto with reads|].
  intros a. apply type_errors_array_some, type_errors_capturesLength.
Qed.

Lemma type_errors_firstAuthorizationId order :
  type_errors_only (firstAuthorizationId order).
Proof. unfold firstAuthorizationId. auto 20 with reads. Qed.

Lemma type_errors_refundCaptureId pu : type_errors_only (refundCaptureId pu).
Proof. unfold refundCaptureId. auto 20 with reads. Qed.

Lemma type_errors_isCanceledAndFullyRefund order status :
  type_errors_only (isCanceledAndFullyRefund order status).
Proof. unfold isCanceledAndFullyRefund. auto 20 with reads. Qed.

(** ** What the operations throw *)

Ltac threw :=
  repeat match goal with
    | H : retrievePayment _ _ _ = (Throw _, _) |- _ =>
        apply retrievePayment_throws in H
    | H : (log_error _ ;;; throw _) _ = (Throw _, _) |- _ =>
        apply log_then_throw_threw in H; subst
    | H : log_error _ _ = (Throw _, _) |- _ => discriminate H
    | H : ret _ _ = (Throw _, _) |- _ => discriminate H
    | H : throw _ _ = (Throw _, _) |- _ => apply throw_threw in H as [-> ->]
    | H : throw _ _ = (Ret _, _) |- _ => discriminate H
    | H : eval _ _ = (Throw _, _) |- _ => apply eval_threw in H as [H ->]
    | H : eval _ _ = (Ret _, _) |- _ => apply eval_returned in H as [H ->]
    | H : try_catch _ _ _ = (Throw _, _) |- _ =>
        let e := fresh "e" in
        let h1 := fresh "h" in
        let Hbody := fresh "Hbody" in
        apply try_catch_threw in H as (e & h1 & Hbody & H); clear Hbody
    | H : bind _ _ _ = (Throw _, _) |- _ =>
        let a := fresh "a" in
        let h1 := fresh "h" in
        let Hc := fresh "Hc" in
        apply bind_threw in H as [H | (a & h1 & Hc & H)]
    | H : (if ?b then _ else _) _ = (Throw _, _) |- _ => destruct b eqn:?
    | H : match ?x with _ => _ end _ = (Throw _, _) |- _ => destruct x eqn:?
    end.

Ltac own_message :=
  left; eexists; split; [|reflexivity]; simpl; auto 10.

Ltac raw_type_error :=
  right; split; [|split; reflexivity];
  match goal with
  | H : _ = Throw ?e |- ?e = TypeError =>
      revert H;
      first [ apply type_errors_embeddedOrder
            | apply type_errors_hasPayments
            | apply type_errors_hasAuthorizations
            | apply type_errors_isAlreadyCaptured
            | apply type_errors_firstAuthorizationId
            | apply type_errors_refundCaptureId
            | apply type_errors_isCanceledAndFullyRefund
            | apply type_errors_prop
            | apply type_errors_optprop
            | apply type_errors_elem0 ]
  end.

Ltac thrown :=
  threw;
  try match goal with
      | H : _ = JsError _ \/ _ = JsError _ |- _ => destruct H; subst
      end;
  first [ discriminate | own_message | raw_type_error ].

Section Thrown.

Variable remote : list Call -> Call -> Response.
Variable convertAmount : value -> value -> outcome value.

(** X1. No error of the remote service or of the amount conversion ever
    leaves an operation. What an operation throws is one of its own
    fixed messages, or, for [capturePayment], [cancelPayment] and
    [refundPayment] only, a raw [TypeError] raised while reading the
    embedded order, before any call and any log. *)
Theorem operations_throw_own_errors op paymentData h e h' :
  run remote convertAmount op paymentData h = (Throw e, h') ->
  (exists message, In message (messages op) /\ e = JsError message) \/
  (e = TypeError /\ h' = h /\ reads_order_unguarded op = true).
Proof.
  destruct op; unfold run; intros Hrun.
  - unfold initiatePayment in Hrun. thrown.
  - unfold retrievePayment in Hrun. apply retrievePayment_throws in Hrun.
    destruct Hrun; subst; own_message.
  - unfold authorizePayment in Hrun. thrown.
  - unfold capturePayment in Hrun. thrown.
  - unfold cancelPayment in Hrun. thrown.
  - unfold refundPayment in Hrun. thrown.
  - unfold updatePayment in Hrun. thrown.
Qed.

End Thrown.

Lemma operations_throw_own_errors_witness :
  (exists message,
     In message (messages RefundPayment) /\
     JsError "An error occurred in refundPayment" = JsError message) \/
  (JsError "An error occurred in refundPayment" = TypeError /\
   start = start /\ reads_order_unguarded RefundPayment = true).
Proof.
  apply (operations_throw_own_errors
           (Scenario.answering (order_json Scenario.orderO1))
           Scenario.formatAmount RefundPayment
           (Scenario.refundInput Scenario.orderO1 5) start
           (JsError "An error occurred in refundPayment") start).
  reflexivity.
Defined.

(** ** How many calls an operation issues *)

Lemma extends_weaken {A} n m n' m' (c : M A) :
  extends_by n m c -> (n <= n')%nat -> (m <= m')%nat -> extends_by n' m' c.
Proof.
  intros Hc Hn Hm h. destruct (Hc h) as (calls & lines & Ht & Hl & Hcalls & Hmut).
  exists calls, lines. repeat split; try assumption; lia.
Qed.

Lemma extends_still {A} n m (c : M A) :
  (forall h, snd (c h) = h) -> extends_by n m c.
Proof.
  intros Hc h. exists [], []. rewrite Hc, !app_nil_r. simpl.
  repeat split; lia.
Qed.

Lemma extends_ret {A} n m (a : A) : extends_by n m (ret a).
Proof. by apply extends_still. Qed.

Lemma extends_throw {A} n m e : extends_by n m (@throw A e).
Proof. by apply extends_still. Qed.

Lemma extends_eval {A} n m (o : outcome A) : extends_by n m (eval o).
Proof. by apply extends_still. Qed.

Lemma extends_log n m entry : extends_by n m (log_error entry).
Proof.
  intros h. exists [], [entry]. simpl. rewrite app_nil_r.
  repeat split; lia.
Qed.

Lemma extends_bind {A B} n m n' m' (c : M A) (k : A -> M B) :
  extends_by n m c -> (forall a, extends_by n' m' (k a)) ->
  extends_by (n + n') (m + m') (bind c k).
Proof.
  intros Hc Hk h. unfold bind.
  destruct (Hc h) as (calls & lines & Ht & Hl & Hcalls & Hmut).
  destruct (c h) as [[a|e] h1]; simpl in *.
  - destruct (Hk a h1) as (calls' & lines' & Ht' & Hl' & Hcalls' & Hmut').
    exists (calls ++ calls'), (lines ++ lines').
    rewrite Ht', Hl', Ht, Hl, !app_assoc, List.filter_app, !length_app.
    repeat split; lia.
  - exists calls, lines. repeat split; try assumption; lia.
Qed.

Lemma extends_try_catch {A} n m n' m' (body : M A) handler :
  extends_by n m body -> (forall e, extends_by n' m' (handler e)) ->
  extends_by (n + n') (m + m') (try_catch body handler).
Proof.
  intros Hbody Hhandler h. unfold try_catch.
  destruct (Hbody h) as (calls & lines & Ht & Hl & Hcalls & Hmut).
  destruct (body h) as [[a|e] h1]; simpl in *.
  - exists calls, lines. repeat split; try assumption; lia.
  - destruct (Hhandler e h1) as (calls' & lines' & Ht' & Hl' & Hcalls' & Hmut').
    exists (calls ++ calls'), (lines ++ lines').
    rewrite Ht', Hl', Ht, Hl, !app_assoc, List.filter_app, !length_app.
    repeat split; lia.
Qed.

(** Sequencing after something that calls nothing keeps the budget. *)
Lemma extends_after_eval {A B} n m (o : outcome A) (k : A -> M B) :
  (forall a, extends_by n m (k a)) -> extends_by n m (bind (eval o) k).
Proof. intros Hk. apply (extends_bind 0 0 n m); [apply extends_eval | exact Hk]. Qed.

Lemma extends_after_log {B} n m entry (k : unit -> M B) :
  (forall a, extends_by n m (k a)) -> extends_by n m (bind (log_error entry) k).
Proof. intros Hk. apply (extends_bind 0 0 n m); [apply extends_log | exact Hk]. Qed.

(** A handler that calls nothing keeps the budget of the body. *)
Lemma extends_guarded {A} n m (body : M A) handler :
  extends_by n m body -> (forall e, extends_by 0 0 (handler e)) ->
  extends_by n m (try_catch body handler).
Proof.
  intros Hbody Hhandler.
  apply (extends_weaken (n + 0) (m + 0)); [|lia|lia].
  by apply extends_try_catch.
Qed.

Section Budget.

Variable remote : list Call -> Call -> Response.
Variable convertAmount : value -> value -> outcome value.

Lemma extends_await c :
  extends_by 1 (if is_mutation c then 1 else 0) (await remote c).
Proof.
  intros h. exists [c], []. unfold await.
  destruct (remote (trace h) c); simpl; rewrite app_nil_r;
    destruct (is_mutation c); simpl; repeat split; lia.
Qed.

Lemma extends_after_await {B} n m c (k : value -> M B) :
  (forall a, extends_by n m (k a)) ->
  extends_by (S n) ((if is_mutation c then 1 else 0) + m) (bind (await remote c) k).
Proof. intros Hk. apply (extends_bind 1 _ n m); [apply extends_await | exact Hk]. Qed.

Lemma retrievePayment_budget paymentData :
  extends_by 1 0 (retrievePayment remote paymentData).
Proof.
  unfold retrievePayment.
  apply (extends_bind 1 0 0 0).
  - apply extends_guarded.
    + do 2 (apply extends_after_eval; intros ?).
      apply (extends_after_await 0 0 (GetOrder _)); intros ?.
      apply extends_after_eval; intros id.
      destruct (truthy id); apply extends_ret.
    + intros [| | | |];
        try apply extends_ret.
      do 2 (apply extends_after_log; intros ?). apply extends_throw.
  - intros [output|]; [apply extends_ret | apply extends_throw].
Qed.

Ltac quiet :=
  repeat first
    [ apply extends_ret
    | apply extends_throw
    | apply extends_after_eval; intros ?
    | apply extends_after_log; intros ? ].

Lemma getPaymentStatus_budget paymentData :
  extends_by 1 0 (getPaymentStatus remote paymentData).
Proof.
  unfold getPaymentStatus.
  apply (extends_bind 1 0 0 0); [apply retrievePayment_budget|].
  intros ?. quiet.
Qed.

Lemma authorizePayment_budget paymentData :
  extends_by 2 0 (authorizePayment remote paymentData).
Proof.
  unfold authorizePayment. apply extends_guarded; [|intros ?; quiet].
  apply (extends_bind 1 0 1 0); [apply getPaymentStatus_budget|].
  intros ?. quiet.
  apply (extends_bind 1 0 0 0); [apply retrievePayment_budget|].
  intros ?. quiet.
Qed.

(** A mutation, then the fetch. *)
Lemma mutate_then_refetch_budget c paymentData :
  extends_by 2 1 (await remote c ;;; retrievePayment remote paymentData).
Proof.
  apply (extends_weaken 2 ((if is_mutation c then 1 else 0) + 0)).
  - apply (extends_after_await 1 0). intros ?. apply retrievePayment_budget.
  - lia.
  - destruct (is_mutation c); simpl; lia.
Qed.

Lemma capturePayment_budget paymentData :
  extends_by 2 1 (capturePayment remote paymentData).
Proof.
  unfold capturePayment. quiet.
  match goal with |- extends_by _ _ (if ?g then _ else _) => destruct g end;
    quiet.
  apply extends_guarded; [apply mutate_then_refetch_budget | intros ?; quiet].
Qed.

Lemma cancelPayment_budget paymentData :
  extends_by 2 1 (cancelPayment remote paymentData).
Proof.
  unfold cancelPayment. quiet.
  match goal with |- extends_by _ _ (if ?g then _ else _) => destruct g end;
    quiet.
  match goal with |- extends_by _ _ (if ?g then _ else _) => destruct g end.
  - apply (extends_weaken 1 0); [apply retrievePayment_budget | lia | lia].
  - apply extends_guarded; [|intros ?; quiet].
    apply extends_after_eval. intros captured.
    apply (extends_bind 1 1 1 0); [|intros ?; apply retrievePayment_budget].
    destruct captured; apply extends_after_eval; intros ?;
      apply extends_await.
Qed.

Lemma initiatePayment_budget paymentData :
  extends_by 1 1 (initiatePayment remote convertAmount paymentData).
Proof.
  unfold initiatePayment. quiet.
  apply (extends_bind 1 1 0 0).
  - apply extends_guarded.
    + quiet. apply (extends_after_await 0 0 (CreateOrder _)); intros ?.
      quiet. match goal with |- extends_by _ _ (if ?g then _ else _) => destruct g end;
        quiet.
    + intros [| | | |]; quiet.
  - intros [output|]; quiet.
Qed.

Lemma refundPayment_budget paymentData :
  extends_by 2 1 (refundPayment remote convertAmount paymentData).
Proof.
  unfold refundPayment. quiet.
  match goal with |- extends_by _ _ (if ?g then _ else _) => destruct g end;
    quiet.
  match goal with |- extends_by _ _ (if ?g then _ else _) => destruct g end;
    quiet.
  apply extends_guarded; [|intros ?; quiet].
  quiet. apply mutate_then_refetch_budget.
Qed.

Lemma updatePayment_budget context :
  extends_by 2 1 (updatePayment remote convertAmount context).
Proof.
  unfold updatePayment. quiet.
  apply extends_guarded; [|intros ?; quiet].
  quiet. apply mutate_then_refetch_budget.
Qed.

(** X2. Every operation only extends the history, by at most two calls of
    which at most one changes anything on the remote side. The fetch,
    the status and the authorization never change anything;
    [retrievePayment] and [getPaymentStatus] call once at most,
    [initiatePayment] calls once at most, and [deletePayment] and
    [getWebhookActionAndData] call nothing. *)
Theorem operations_call_budget paymentData :
  (forall op, extends_by 2 1 (run remote convertAmount op paymentData)) /\
  extends_by 1 0 (retrievePayment remote paymentData) /\
  extends_by 1 0 (getPaymentStatus remote paymentData) /\
  extends_by 2 0 (authorizePayment remote paymentData) /\
  extends_by 1 1 (initiatePayment remote convertAmount paymentData) /\
  extends_by 0 0 (deletePayment paymentData) /\
  extends_by 0 0 (getWebhookActionAndData (VObj paymentData)).
Proof.
  split; [|repeat split].
  - intros []; simpl.
    + apply (extends_weaken 1 1); [apply initiatePayment_budget | lia | lia].
    + apply (extends_weaken 1 0); [apply retrievePayment_budget | lia | lia].
    + apply (extends_weaken 2 0); [apply authorizePayment_budget | lia | lia].
    + apply capturePayment_budget.
    + apply cancelPayment_budget.
    + apply refundPayment_budget.
    + apply updatePayment_budget.
  - apply retrievePayment_budget.
  - apply getPaymentStatus_budget.
  - apply authorizePayment_budget.
  - apply initiatePayment_budget.
  - apply extends_ret.
  - apply extends_ret.
Qed.

End Budget.

(** ** Initiation *)

Lemma withOrder_order paymentData id result :
  prop (VObj (withOrder paymentData id result)) "paypalOrder" = Ret result.
Proof. unfold withOrder, prop. by rewrite lookup_insert_eq. Qed.

Lemma withOrder_id paymentData ident result :
  prop (VObj (withOrder paymentData ident result)) "paypalOrderId" = Ret ident.
Proof.
  unfold withOrder, prop. rewrite lookup_insert_ne; [|done].
  by rewrite lookup_insert_eq.
Qed.

Section Initiation.

Variable remote : list Call -> Call -> Response.
Variable convertAmount : value -> value -> outcome value.



End Initiation.


(** ** Authorization *)


Lemma prop_singleton k v : prop (VObj {[ k := v ]}) k = Ret v.
Proof. unfold prop. by rewrite lookup_singleton_eq. Qed.

Lemma withOrder_insert paymentData id result :
  <["paypalOrderId" := id]> (<["paypalOrder" := result]> paymentData)
  = withOrder paymentData id result.
Proof. unfold withOrder. by rewrite insert_insert_ne. Qed.

Section Authorization.

Variable remote : list Call -> Call -> Response.

(** X4. When both fetches answer with an identified order,
    [authorizePayment] issues these two fetches of the embedded order's
    identifier and nothing else, and succeeds. The status it returns is
    the table's image of the status in the first answer; the order it
    returns as [paypalOrder] is the second answer, and [paypalOrderId]
    the second answer's identifier. *)
Theorem authorizePayment_fetches_twice
    paymentData order orderId h first id1 second id2 :
  embeddedOrder paymentData = Ret order ->
  prop order "id" = Ret orderId ->
  remote (trace h) (GetOrder orderId) = Returns first ->
  prop first "id" = Ret id1 -> truthy id1 = true ->
  remote (trace h ++ [GetOrder orderId]) (GetOrder orderId) = Returns second ->
  prop second "id" = Ret id2 -> truthy id2 = true ->
  exists status output,
    prop first "status" = Ret status /\
    authorizePayment remote paymentData h
    = (Ret output, called (called h (GetOrder orderId)) (GetOrder orderId)) /\
    output = VObj (<["status" := VStr (paymentSessionStatus status)]>
                     {[ "data" := VObj (withOrder paymentData id2 second) ]}) /\
    prop output "status" = Ret (VStr (paymentSessionStatus status)) /\
    carries output second id2.
Proof.
  intros Horder HorderId Hfirst Hid1 Htruthy1 Hsecond Hid2 Htruthy2.
  destruct (identified_readable first id1 "status" Hid1 Htruthy1) as [status Hstatus].
  exists status. eexists. split; [assumption|].
  split; [|split; [reflexivity|]].
  - unfold authorizePayment, try_catch, getPaymentStatus, bind.
    rewrite (retrievePayment_run remote paymentData order orderId h Horder HorderId).
    rewrite Hfirst, Hid1, Htruthy1.
    unfold eval, ret. rewrite prop_fetched_data, withOrder_order, Hstatus.
    rewrite prop_singleton.
    rewrite (retrievePayment_run remote paymentData order orderId _ Horder HorderId).
    cbn [called trace]. rewrite Hsecond, Hid2, Htruthy2.
    rewrite prop_fetched_data, withOrder_order, Hid2.
    rewrite withOrder_insert. reflexivity.
  - split.
    + unfold prop. by rewrite lookup_insert_eq.
    + unfold carries, outputOrder, outputOrderId.
      assert (Hdata : prop (VObj (<["status" := VStr (paymentSessionStatus status)]>
                              {[ "data" := VObj (withOrder paymentData id2 second) ]}))
                        "data"
                      = Ret (VObj (withOrder paymentData id2 second))).
      { unfold prop. rewrite lookup_insert_ne; [|done].
        by rewrite lookup_singleton_eq. }
      rewrite Hdata. cbn [and_then].
      split; [apply withOrder_order | apply withOrder_id].
Qed.

End Authorization.

Lemma authorizePayment_fetches_twice_witness :
  let remote := Story.changing (order_json Scenario.orderO1authorized)
                  (order_json Scenario.orderO1captured) in
  let paymentData := Scenario.payload Scenario.orderO1 in
  exists status output,
    prop (order_json Scenario.orderO1authorized) "status" = Ret status /\
    authorizePayment remote paymentData start
    = (Ret output,
       called (called start (GetOrder (VStr "O1"))) (GetOrder (VStr "O1"))) /\
    output = VObj (<["status" := VStr (paymentSessionStatus status)]>
                     {[ "data" := VObj (withOrder paymentData (VStr "O1")
                                         (order_json Scenario.orderO1captured)) ]}) /\
    prop output "status" = Ret (VStr (paymentSessionStatus status)) /\
    carries output (order_json Scenario.orderO1captured) (VStr "O1").
Proof.
  apply (authorizePayment_fetches_twice
           (Story.changing (order_json Scenario.orderO1authorized)
              (order_json Scenario.orderO1captured))
           (Scenario.payload Scenario.orderO1)
           (order_json Scenario.orderO1) (VStr "O1") start
           (order_json Scenario.orderO1authorized) (VStr "O1")
           (order_json Scenario.orderO1captured) (VStr "O1"));
    reflexivity.
Defined.

(** The order changed between the two fetches: the output says
    "requires_more" next to a completed order. *)
Example authorizePayment_stale_status :
  let remote := Story.changing (order_json Scenario.orderO1authorized)
                  (order_json Scenario.orderO1captured) in
  let output := fst (authorizePayment remote (Scenario.payload Scenario.orderO1) start) in
  and_then output (fun out => prop out "status") = Ret (VStr "requires_more") /\
  and_then output (fun out => and_then (outputOrder out)
                                (fun order => prop order "status"))
  = Ret (VStr "COMPLETED").
Proof. split; vm_compute; reflexivity. Qed.

(** ** Update and refund *)

Section MutateThenFetch.

Variable remote : list Call -> Call -> Response.
Variable convertAmount : value -> value -> outcome value.

(** A mutation guarded by a [try] whose handler logs the error and
    throws [failure], followed by the fetch: the three ways it ends. *)
Lemma mutate_then_refetch_run paymentData order orderId request failure h :
  embeddedOrder paymentData = Ret order ->
  prop order "id" = Ret orderId ->
  let attempt :=
    try_catch
      (await remote request ;;; retrievePayment remote paymentData)
      (fun error => log_error (LogError error) ;;; throw failure) in
  match remote (trace h) request with
  | Rejects error =>
      attempt h
      = (Throw failure,
         mkHistory (trace h ++ [request]) (logged h ++ [LogError error]))
  | Returns _ =>
      issued h (snd (attempt h)) = [request; GetOrder orderId] /\
      (forall result id,
         remote (trace h ++ [request]) (GetOrder orderId) = Returns result ->
         prop result "id" = Ret id -> truthy id = true ->
         exists output,
           attempt h
           = (Ret output, called (called h request) (GetOrder orderId)) /\
           output = fetched paymentData id result /\
           carries output result id) /\
      (forall e h1,
         retrievePayment remote paymentData (called h request) = (Throw e, h1) ->
         attempt h
         = (Throw failure, mkHistory (trace h1) (logged h1 ++ [LogError e])))
  end.
Proof.
  intros Horder Hid attempt.
  destruct (remote (trace h) request) as [accepted|error] eqn:Hremote.
  - split; [|split].
    + apply issued_app. unfold attempt.
      rewrite (mutate_then_refetch_calls remote paymentData order orderId
                 request _ h Horder Hid).
      * by rewrite Hremote.
      * reflexivity.
    + intros result id Hfetch Hrid Htruthy.
      exists (fetched paymentData id result).
      split; [|split; [reflexivity | apply fetched_carries]].
      unfold attempt, try_catch, bind at 1, await. rewrite Hremote.
      rewrite (retrievePayment_run remote paymentData order orderId _ Horder Hid).
      cbn [trace]. rewrite Hfetch, Hrid, Htruthy. reflexivity.
    + intros e h1 Hfetch.
      unfold attempt, try_catch, bind at 1, await. rewrite Hremote.
      unfold called in Hfetch. rewrite Hfetch. reflexivity.
  - unfold attempt, try_catch, bind, await. rewrite Hremote. reflexivity.
Qed.

(** X5. [updatePayment] on a payload with an embedded order. When the
    conversion of the new amount throws, the error is logged, the update
    error thrown and nothing called. Otherwise the order is patched with
    one replace operation carrying the converted amount: a rejection is
    logged and ends in the update error; after an accepted patch the
    order is fetched, the fetched order is returned when it carries its
    identifier (it is the output's [paypalOrder], and its identifier the
    output's [paypalOrderId]), and a failed fetch is logged and ends in
    the update error, the patch staying issued. *)
Theorem updatePayment_patches_then_fetches context order orderId h :
  embeddedOrder context = Ret order ->
  prop order "id" = Ret orderId ->
  let amount := default VUndefined (context !! "amount") in
  let currency := default VUndefined (context !! "currency_code") in
  let failure := JsError "An error occurred in updatePayment" in
  (forall e,
     convertAmount amount currency = Throw e ->
     updatePayment remote convertAmount context h
     = (Throw failure, mkHistory (trace h) (logged h ++ [LogError e]))) /\
  (forall money,
     convertAmount amount currency = Ret money ->
     let request := PatchOrder orderId (patchOrderBody money) in
     match remote (trace h) request with
     | Rejects error =>
         updatePayment remote convertAmount context h
         = (Throw failure,
            mkHistory (trace h ++ [request]) (logged h ++ [LogError error]))
     | Returns _ =>
         issued h (snd (updatePayment remote convertAmount context h))
         = [request; GetOrder orderId] /\
         (forall result id,
            remote (trace h ++ [request]) (GetOrder orderId) = Returns result ->
            prop result "id" = Ret id -> truthy id = true ->
            exists output,
              updatePayment remote convertAmount context h
              = (Ret output, called (called h request) (GetOrder orderId)) /\
              output = fetched context id result /\
              carries output result id) /\
         (forall e h1,
            retrievePayment remote context (called h request) = (Throw e, h1) ->
            updatePayment remote convertAmount context h
            = (Throw failure, mkHistory (trace h1) (logged h1 ++ [LogError e])))
     end).
Proof.
  intros Horder Hid amount currency failure. split.
  - intros e Hconvert.
    unfold updatePayment, bind, try_catch, eval. cbn [prop].
    fold amount currency. rewrite Horder, Hid, Hconvert. reflexivity.
  - intros money Hconvert request.
    assert (Hrun : updatePayment remote convertAmount context h
                   = try_catch
                       (await remote request ;;; retrievePayment remote context)
                       (fun error => log_error (LogError error) ;;; throw failure) h).
    { unfold updatePayment, try_catch, bind at 1 2 3 4 5, eval. cbn [prop].
      fold amount currency. rewrite Horder, Hid, Hconvert. reflexivity. }
    rewrite Hrun.
    apply (mutate_then_refetch_run context order orderId request failure h Horder Hid).
Qed.

(** X6. [refundPayment] on an order whose first purchase unit has a capture.
    The amount asked for is converted to the first purchase unit's
    currency ([undefined] when the unit has no amount). When the
    conversion throws, the error is logged, the refund error thrown and
    nothing called. Otherwise the refund of the converted amount is
    requested against the first capture of the first purchase unit,
    whatever other captures there are: a rejection is logged and ends in
    the refund error; after an accepted refund the order is fetched, the
    fetched order is returned when it carries its identifier (it is the
    output's [paypalOrder], and its identifier the output's
    [paypalOrderId]), and a failed fetch is logged and ends in the refund
    error, the refund staying issued. *)
Theorem refundPayment_refunds_first_capture paymentData o u rest c cs h :
  embeds paymentData o ->
  units o = u :: rest ->
  unit_captures u = c :: cs ->
  let orderId := optional VStr (order_id o) in
  let amount := default VUndefined (paymentData !! "amount") in
  let failure := JsError "An error occurred in refundPayment" in
  (forall e,
     convertAmount amount (unit_currency u) = Throw e ->
     refundPayment remote convertAmount paymentData h
     = (Throw failure, mkHistory (trace h) (logged h ++ [LogError e]))) /\
  (forall money,
     convertAmount amount (unit_currency u) = Ret money ->
     let request := RefundCapturedPayment (optional VStr (capture_id c))
                      (VObj {[ "amount" := money ]}) in
     match remote (trace h) request with
     | Rejects error =>
         refundPayment remote convertAmount paymentData h
         = (Throw failure,
            mkHistory (trace h ++ [request]) (logged h ++ [LogError error]))
     | Returns _ =>
         issued h (snd (refundPayment remote convertAmount paymentData h))
         = [request; GetOrder orderId] /\
         (forall result id,
            remote (trace h ++ [request]) (GetOrder orderId) = Returns result ->
            prop result "id" = Ret id -> truthy id = true ->
            exists output,
              refundPayment remote convertAmount paymentData h
              = (Ret output, called (called h request) (GetOrder orderId)) /\
              output = fetched paymentData id result /\
              carries output result id) /\
         (forall e h1,
            retrievePayment remote paymentData (called h request) = (Throw e, h1) ->
            refundPayment remote convertAmount paymentData h
            = (Throw failure, mkHistory (trace h1) (logged h1 ++ [LogError e])))
     end).
Proof.
  intros Hembeds Hunits Hcaptures orderId amount failure.
  pose proof (embeddedOrder_embeds _ _ Hembeds) as Horder.
  assert (exists p, payments u = Some p /\ captures p = Some (c :: cs))
    as (p & Hp & Hcs).
  { unfold unit_captures in Hcaptures. destruct (payments u) as [p|]; [|discriminate].
    exists p. split; [reflexivity|].
    destruct (captures p); [congruence | discriminate]. }
  assert (Hsome : some_unit_captured o).
  { unfold some_unit_captured. rewrite Hunits. left. congruence. }
  assert (Hid : refundCaptureId (unit_json u)
                = Ret (optional VStr (capture_id c))).
  { unfold refundCaptureId. rewrite prop_unit_payments, Hp. cbn.
    change (nullish (payments_json p)) with false. cbn.
    rewrite prop_payments_captures, Hcs. cbn. apply prop_capture_id. }
  assert (Hcurrency : and_then (prop (unit_json u) "amount")
                        (fun unitAmount => optprop unitAmount "currencyCode")
                      = Ret (unit_currency u)).
  { rewrite prop_unit_amount. unfold unit_currency.
    destruct (Typed.amount u) as [m|]; reflexivity. }
  assert (Hrun :
            refundPayment remote convertAmount paymentData h
            = try_catch
                (money <- eval (convertAmount amount (unit_currency u)) ;;
                 await remote (RefundCapturedPayment
                                 (optional VStr (capture_id c))
                                 (VObj {[ "amount" := money ]})) ;;;
                 retrievePayment remote paymentData)
                (fun error => log_error (LogError error) ;;; throw failure) h).
  { unfold refundPayment, bind at 1 2 3 4 5 6 7 8 9, eval at 1 2 3 4 5 6 7 8 9.
    rewrite Horder, hasPayments_json, Hunits, Hp.
    rewrite prop_order_purchaseUnits, (units_cons _ _ _ Hunits). cbn [optional array map elem0 nth].
    rewrite (isAlreadyCaptured_true o Hsome). cbn [negb].
    rewrite Hid.
    unfold and_then in Hcurrency.
    destruct (prop (unit_json u) "amount") as [unitAmount|e]; [|discriminate].
    rewrite Hcurrency. reflexivity. }
  split.
  - intros e Hconvert. rewrite Hrun.
    unfold try_catch, bind, eval. rewrite Hconvert. reflexivity.
  - intros money Hconvert request. rewrite Hrun.
    assert (Hbody : (money <- eval (convertAmount amount (unit_currency u)) ;;
                     await remote (RefundCapturedPayment
                                     (optional VStr (capture_id c))
                                     (VObj {[ "amount" := money ]})) ;;;
                     retrievePayment remote paymentData)
                    = (await remote request ;;; retrievePayment remote paymentData)).
    { unfold bind at 1, eval. rewrite Hconvert. reflexivity. }
    rewrite Hbody.
    apply (mutate_then_refetch_run paymentData (order_json o) orderId request
             failure h Horder (prop_order_id o)).
Qed.

End MutateThenFetch.

Lemma updatePayment_patches_then_fetches_witness :
  let remote := Scenario.answering (order_json Scenario.orderO1) in
  let context := Story.updateInput Scenario.orderO1 12 "USD" in
  let money := VObj (<["currencyCode" := VStr "USD"]> {[ "value" := VNum 12 ]}) in
  let request := PatchOrder (VStr "O1") (patchOrderBody money) in
  exists output,
    updatePayment remote Scenario.formatAmount context start
    = (Ret output, called (called start request) (GetOrder (VStr "O1"))) /\
    output = fetched context (VStr "O1") (order_json Scenario.orderO1) /\
    carries output (order_json Scenario.orderO1) (VStr "O1").
Proof.
  refine (proj1 (proj2 (proj2 (updatePayment_patches_then_fetches
            (Scenario.answering (order_json Scenario.orderO1))
            Scenario.formatAmount
            (Story.updateInput Scenario.orderO1 12 "USD")
            (order_json Scenario.orderO1) (VStr "O1") start _ _)
            (VObj (<["currencyCode" := VStr "USD"]> {[ "value" := VNum 12 ]})) _))
            (order_json Scenario.orderO1) (VStr "O1") _ _ _);
    reflexivity.
Defined.

Lemma refundPayment_refunds_first_capture_witness :
  let remote := Scenario.answering (order_json Scenario.orderO2) in
  let paymentData := Scenario.refundInput Scenario.orderO2 5 in
  let money := VObj (<["currencyCode" := VStr "USD"]> {[ "value" := VNum 5 ]}) in
  let request := RefundCapturedPayment (VStr "C1") (VObj {[ "amount" := money ]}) in
  exists output,
    refundPayment remote Scenario.formatAmount paymentData start
    = (Ret output, called (called start request) (GetOrder (VStr "O2"))) /\
    output = fetched paymentData (VStr "O2") (order_json Scenario.orderO2) /\
    carries output (order_json Scenario.orderO2) (VStr "O2").
Proof.
  refine (proj1 (proj2 (proj2 (refundPayment_refunds_first_capture
            (Scenario.answering (order_json Scenario.orderO2))
            Scenario.formatAmount
            (Scenario.refundInput Scenario.orderO2 5)
            Scenario.orderO2 _ _ (Scenario.capture "C1") [] start _ _ _)
            (VObj (<["currencyCode" := VStr "USD"]> {[ "value" := VNum 5 ]})) _))
            (order_json Scenario.orderO2) (VStr "O2") _ _ _);
    try reflexivity.
  eexists. split; reflexivity.
Defined.

(** ** Capture whose re-fetch fails *)

Section CaptureRefetch.

Variable remote : list Call -> Call -> Response.

(** X7. When the capture is accepted and the fetch after it fails,
    [capturePayment] reports the generic capture error although the
    capture went through: both calls were issued, and the error of the
    fetch is only logged. *)
Theorem capturePayment_refetch_failure paymentData o a accepted e h1 h :
  embeds paymentData o ->
  first_authorization o = Some a ->
  let capture := CaptureAuthorizedPayment (optional VStr (authorization_id a)) in
  remote (trace h) capture = Returns accepted ->
  retrievePayment remote paymentData (called h capture) = (Throw e, h1) ->
  capturePayment remote paymentData h
  = (Throw (JsError "An error occurred in capturePayment"),
     mkHistory (trace h1) (logged h1 ++ [LogError e])) /\
  trace h1 = trace h ++ [capture; GetOrder (optional VStr (order_id o))] /\
  (e = JsError "Initialize payment failed" \/
   e = JsError "Initialize payment failed.").
Proof.
  intros Hembeds Hsome capture Haccepted Hfetch.
  pose proof (embeddedOrder_embeds _ _ Hembeds) as Horder.
  destruct (first_authorization_some o a Hsome) as (u & rest & l & Hunits & Hl).
  assert (Hrun : capturePayment remote paymentData h
                 = try_catch
                     (await remote capture ;;; retrievePayment remote paymentData)
                     (fun error =>
                        log_error (LogError error) ;;;
                        throw (JsError "An error occurred in capturePayment")) h).
  { unfold capturePayment, bind at 1 2 3, eval.
    rewrite Horder, hasAuthorizations_json, Hunits, Hl.
    rewrite (firstAuthorizationId_json o u rest a l Hunits Hl). reflexivity. }
  pose proof (mutate_then_refetch_run remote paymentData (order_json o)
                (optional VStr (order_id o)) capture
                (JsError "An error occurred in capturePayment") h
                Horder (prop_order_id o)) as Hcases.
  cbn zeta in Hcases. rewrite Haccepted in Hcases.
  destruct Hcases as (_ & _ & Hfailed).
  split; [rewrite Hrun; apply Hfailed, Hfetch|].
  split.
  - pose proof (retrievePayment_calls remote paymentData (order_json o)
                  (optional VStr (order_id o)) (called h capture)
                  Horder (prop_order_id o)) as Hcalls.
    rewrite Hfetch in Hcalls. simpl in Hcalls. rewrite Hcalls.
    by rewrite <- app_assoc.
  - eapply retrievePayment_throws, Hfetch.
Qed.

End CaptureRefetch.

Lemma capturePayment_refetch_failure_witness :
  let remote := Story.failing_after (Failure "timeout") in
  let paymentData := Scenario.payload Scenario.orderO1authorized in
  capturePayment remote paymentData start
  = (Throw (JsError "An error occurred in capturePayment"),
     mkHistory [CaptureAuthorizedPayment (VStr "A1"); GetOrder (VStr "O1")]
       [LogError (JsError "Initialize payment failed.")]).
Proof.
  refine (proj1 (capturePayment_refetch_failure
                   (Story.failing_after (Failure "timeout"))
                   (Scenario.payload Scenario.orderO1authorized)
                   Scenario.orderO1authorized (Scenario.authorization "A1")
                   VUndefined (JsError "Initialize payment failed.")
                   (mkHistory [CaptureAuthorizedPayment (VStr "A1");
                               GetOrder (VStr "O1")] [])
                   start _ _ _ _));
    try reflexivity.
  eexists. split; reflexivity.
Defined.

(** ** Inputs without an embedded order *)

Lemma embeddedOrder_lacking paymentData :
  lacks_order paymentData ->
  embeddedOrder paymentData = Throw TypeError \/
  embeddedOrder paymentData = Ret VUndefined.
Proof.
  unfold embeddedOrder, prop.
  intros [Hdata | (data & Hdata & Horder)]; rewrite Hdata; simpl.
  - left. reflexivity.
  - right. by rewrite Horder.
Qed.

Section WithoutOrder.

Variable remote : list Call -> Call -> Response.
Variable convertAmount : value -> value -> outcome value.

(** X8. On an input without [data], or whose [data] has no [paypalOrder],
    nothing is ever called. [capturePayment], [cancelPayment] and
    [refundPayment] throw a raw [TypeError]; [retrievePayment] and
    [getPaymentStatus] throw the second initiation error;
    [authorizePayment] throws its own error; [updatePayment] logs the
    [TypeError] and throws its own error. *)
Theorem operations_without_order paymentData h :
  lacks_order paymentData ->
  capturePayment remote paymentData h = (Throw TypeError, h) /\
  cancelPayment remote paymentData h = (Throw TypeError, h) /\
  refundPayment remote convertAmount paymentData h = (Throw TypeError, h) /\
  retrievePayment remote paymentData h
  = (Throw (JsError "Initialize payment failed."), h) /\
  getPaymentStatus remote paymentData h
  = (Throw (JsError "Initialize payment failed."), h) /\
  authorizePayment remote paymentData h
  = (Throw (JsError "Authorize payment failed"), h) /\
  updatePayment remote convertAmount paymentData h
  = (Throw (JsError "An error occurred in updatePayment"),
     mkHistory (trace h) (logged h ++ [LogError TypeError])).
Proof.
  intros Hlacks.
  assert (Hretrieve : retrievePayment remote paymentData h
                      = (Throw (JsError "Initialize payment failed."), h)).
  { unfold retrievePayment, bind, try_catch, eval.
    destruct (embeddedOrder_lacking paymentData Hlacks) as [-> | ->]; reflexivity. }
  repeat split.
  - unfold capturePayment, bind, eval.
    destruct (embeddedOrder_lacking paymentData Hlacks) as [-> | ->]; reflexivity.
  - unfold cancelPayment, bind, eval.
    destruct (embeddedOrder_lacking paymentData Hlacks) as [-> | ->]; reflexivity.
  - unfold refundPayment, bind, eval.
    destruct (embeddedOrder_lacking paymentData Hlacks) as [-> | ->]; reflexivity.
  - exact Hretrieve.
  - unfold getPaymentStatus, bind. rewrite Hretrieve. reflexivity.
  - unfold authorizePayment, try_catch, getPaymentStatus, bind.
    rewrite Hretrieve. reflexivity.
  - unfold updatePayment, bind, try_catch, eval. cbn [prop].
    destruct (embeddedOrder_lacking paymentData Hlacks) as [-> | ->]; reflexivity.
Qed.

End WithoutOrder.

Lemma operations_without_order_witness :
  let remote := Scenario.answering (order_json Scenario.orderO1) in
  capturePayment remote Story.bare start = (Throw TypeError, start) /\
  cancelPayment remote Story.bare start = (Throw TypeError, start) /\
  refundPayment remote Scenario.formatAmount Story.bare start
  = (Throw TypeError, start) /\
  retrievePayment remote Story.bare start
  = (Throw (JsError "Initialize payment failed."), start) /\
  getPaymentStatus remote Story.bare start
  = (Throw (JsError "Initialize payment failed."), start) /\
  authorizePayment remote Story.bare start
  = (Throw (JsError "Authorize payment failed"), start) /\
  updatePayment remote Scenario.formatAmount Story.bare start
  = (Throw (JsError "An error occurred in updatePayment"),
     mkHistory (trace start) (logged start ++ [LogError TypeError])).
Proof.
  apply (operations_without_order
           (Scenario.answering (order_json Scenario.orderO1))
           Scenario.formatAmount Story.bare start).
  left. reflexivity.
Defined.

(** ** Cancellation without a payments sub-object *)

Section CancelGuard.

Variable remote : list Call -> Call -> Response.

(** X9. When the embedded order has no purchase unit, or its first purchase
    unit has no payments sub-object, [cancelPayment] fails with the
    generic cancel error and calls nothing, whatever the order's status:
    the guard comes before the shortcut, so even an order that is
    already voided is not reported as canceled. *)
Theorem cancelPayment_requires_payments paymentData o h :
  embeds paymentData o ->
  ~ first_unit_has_payments o ->
  cancelPayment remote paymentData h
  = (Throw (JsError "An error occurred in cancelPayment"), h).
Proof.
  intros Hembeds Hnone.
  unfold cancelPayment, bind, eval.
  rewrite (embeddedOrder_embeds _ _ Hembeds), hasPayments_json.
  destruct (units o) as [|u rest] eqn:Hunits; [reflexivity|].
  destruct (payments u) as [p|] eqn:Hp; [|reflexivity].
  exfalso. apply Hnone. exists u, rest, p. auto.
Qed.

End CancelGuard.

Lemma cancelPayment_requires_payments_witness :
  order_status Story.orderO7 = Some OrderStatus.Voided /\
  cancelPayment (Scenario.answering (order_json Story.orderO7))
    (Scenario.payload Story.orderO7) start
  = (Throw (JsError "An error occurred in cancelPayment"), start).
Proof.
  split; [reflexivity|].
  apply (cancelPayment_requires_payments
           (Scenario.answering (order_json Story.orderO7))
           (Scenario.payload Story.orderO7) Story.orderO7 start).
  - eexists. split; reflexivity.
  - intros (u & rest & p & Hunits & Hp).
    injection Hunits as <- _. discriminate Hp.
Defined.

(** ** Validated options construct *)

(** X10. Options that pass [validateOptions] are accepted by the constructor,
    which builds the client with the given credentials, no timeout, and
    the environment the options name. *)
Theorem validated_options_construct (options : gmap string value) :
  validateOptions options = Ret tt ->
  exists env,
    constructor options
    = Ret (mkClientConfig (option_value options "oAuthClientId")
             (option_value options "oAuthClientSecret") 0 env) /\
    ((option_value options "environment" = VStr "sandbox" /\ env = Sandbox) \/
     (option_value options "environment" = VStr "production" /\ env = Production)).
Proof.
  unfold validateOptions, constructor. rewrite !prop_options. cbn [and_then].
  destruct (truthy (option_value options "oAuthClientId")); [|discriminate].
  destruct (truthy (option_value options "oAuthClientSecret")); [|discriminate].
  cbn [negb andb].
  destruct (is_string (option_value options "environment") "production")
    eqn:Hproduction;
    destruct (is_string (option_value options "environment") "sandbox")
      eqn:Hsandbox; try discriminate; intros _.
  - apply is_string_true in Hproduction, Hsandbox. congruence.
  - apply is_string_true in Hproduction. rewrite Hproduction.
    exists Production. split; [reflexivity | right; auto].
  - apply is_string_true in Hsandbox. rewrite Hsandbox.
    exists Sandbox. split; [reflexivity | left; auto].
Qed.

Lemma validated_options_construct_witness :
  exists env,
    constructor Story.sandboxOptions
    = Ret (mkClientConfig (option_value Story.sandboxOptions "oAuthClientId")
             (option_value Story.sandboxOptions "oAuthClientSecret") 0 env) /\
    ((option_value Story.sandboxOptions "environment" = VStr "sandbox" /\
      env = Sandbox) \/
     (option_value Story.sandboxOptions "environment" = VStr "production" /\
      env = Production)).
Proof.
  apply (validated_options_construct Story.sandboxOptions). reflexivity.
Defined.

(** ** The status after the fetch *)

Lemma paymentSessionStatus_range status :
  In (paymentSessionStatus status)
    ["pending"; "requires_more"; "canceled"; "authorized"].
Proof.
  unfold paymentSessionStatus.
  repeat match goal with
         | |- context [if ?b then _ else _] => destruct b
         end; simpl; auto 10.
Qed.

Lemma prop_object_data (input returned : gmap string value) :
  input !! "data" = Some (VObj returned) ->
  prop (VObj input) "data" = Ret (VObj returned).
Proof. intros Hdata. unfold prop. by rewrite Hdata. Qed.

Section Composition.

Variable remote : list Call -> Call -> Response.
Variable convertAmount : value -> value -> outcome value.

(** X11. [getPaymentStatus] adds no failure of its own to the fetch: it
    throws exactly when [retrievePayment] throws, the same error in the
    same history, and otherwise returns one of the four statuses
    pending, requires_more, canceled and authorized. It never reports
    captured or error. *)
Theorem getPaymentStatus_follows_fetch paymentData h :
  match retrievePayment remote paymentData h with
  | (Throw e, h') => getPaymentStatus remote paymentData h = (Throw e, h')
  | (Ret _, h') =>
      exists status,
        getPaymentStatus remote paymentData h
        = (Ret (VObj {[ "status" := VStr status ]}), h') /\
        In status ["pending"; "requires_more"; "canceled"; "authorized"]
  end.
Proof.
  destruct (retrievePayment remote paymentData h) as [[out|e] h'] eqn:Hfetch.
  - destruct (retrievePayment_answered remote paymentData h out h' Hfetch)
      as (id & result & -> & Hid & Htruthy & _).
    destruct (identified_readable result id "status" Hid Htruthy) as [status Hstatus].
    exists (paymentSessionStatus status).
    split; [|apply paymentSessionStatus_range].
    unfold getPaymentStatus, bind. rewrite Hfetch.
    unfold eval, ret. rewrite prop_fetched_data, withOrder_order, Hstatus.
    reflexivity.
  - unfold getPaymentStatus, bind. rewrite Hfetch. reflexivity.
Qed.

(** X12. What a successful operation returns as [data] is a payload for the
    next operation: given back under [data], it embeds the order just
    fetched or created, so that the next fetch asks for the identifier
    the output carries as [paypalOrderId]. *)
Theorem next_fetch_asks_returned_order
    op paymentData h out h' (returned next : gmap string value) :
  run remote convertAmount op paymentData h = (Ret out, h') ->
  prop out "data" = Ret (VObj returned) ->
  next !! "data" = Some (VObj returned) ->
  exists id,
    returned !! "paypalOrderId" = Some id /\
    truthy id = true /\
    forall h2,
      trace (snd (retrievePayment remote next h2)) = trace h2 ++ [GetOrder id].
Proof.
  intros Hrun Hdata Hnext.
  destruct (run_success remote convertAmount op paymentData h out h' Hrun)
    as (id & result & Hout & Hid & Htruthy & _).
  rewrite Hout in Hdata. injection Hdata as <-.
  exists id. split; [|split; [assumption|]].
  - unfold withOrder. rewrite lookup_insert_ne; [|done]. by rewrite lookup_insert_eq.
  - intros h2. apply (retrievePayment_calls remote next result id h2); [|assumption].
    unfold embeddedOrder. rewrite (prop_object_data _ _ Hnext).
    cbn [and_then]. apply withOrder_order.
Qed.

End Composition.

Lemma next_fetch_asks_returned_order_witness :
  let remote := Scenario.answering (order_json Scenario.orderO1) in
  let input := Scenario.initiateInput 10 "USD" in
  let returned := withOrder input (VStr "O1") (order_json Scenario.orderO1) in
  exists id,
    returned !! "paypalOrderId" = Some id /\
    truthy id = true /\
    forall h2,
      trace (snd (retrievePayment remote {[ "data" := VObj returned ]} h2))
      = trace h2 ++ [GetOrder id].
Proof.
  apply (next_fetch_asks_returned_order
           (Scenario.answering (order_json Scenario.orderO1))
           Scenario.formatAmount InitiatePayment
           (Scenario.initiateInput 10 "USD") start
           (VObj (<["data" := VObj (withOrder (Scenario.initiateInput 10 "USD")
                                      (VStr "O1") (order_json Scenario.orderO1))]>
                    {[ "id" := VStr "O1" ]}))
           (called start (CreateOrder (createOrderBody
              (VObj (<["currencyCode" := VStr "USD"]> {[ "value" := VNum 10 ]})))))
           (withOrder (Scenario.initiateInput 10 "USD") (VStr "O1")
              (order_json Scenario.orderO1))
           {[ "data" := VObj (withOrder (Scenario.initiateInput 10 "USD")
                                (VStr "O1") (order_json Scenario.orderO1)) ]}).
  - vm_compute. reflexivity.
  - vm_compute. reflexivity.
  - vm_compute. reflexivity.
Defined.

(** ** The outcome of a cancellation *)

Lemma forallb_uncaptured us :
  forallb (fun u' => match unit_captures u' with [] => true | _ => false end) us
  = true ->
  Forall (fun u => unit_captures u = []) us.
Proof.
  induction us as [|u us IH]; simpl; [constructor|].
  destruct (unit_captures u) eqn:Hu; [|discriminate].
  intros Hrest. constructor; auto.
Qed.

Section CancelOutcome.

Variable remote : list Call -> Call -> Response.

(** X13. Outside the shortcut states, with the refund or void that
    [cancelPayment] chooses: a rejection ends in the generic cancel error
    and is not logged; after acceptance the order is fetched, the fetched
    order is returned when it carries its identifier (it is the output's
    [paypalOrder], and its identifier the output's [paypalOrderId]), and
    a failed fetch ends in the generic cancel error, the refund or void
    staying issued. *)
Theorem cancelPayment_outcome paymentData o request h :
  embeds paymentData o ->
  ~ already_canceled o ->
  cancelRequest o = Some request ->
  let orderId := optional VStr (order_id o) in
  let failure := JsError "An error occurred in cancelPayment" in
  match remote (trace h) request with
  | Rejects _ =>
      cancelPayment remote paymentData h = (Throw failure, called h request)
  | Returns _ =>
      (forall result id,
         remote (trace h ++ [request]) (GetOrder orderId) = Returns result ->
         prop result "id" = Ret id -> truthy id = true ->
         exists output,
           cancelPayment remote paymentData h
           = (Ret output, called (called h request) (GetOrder orderId)) /\
           output = fetched paymentData id result /\
           carries output result id) /\
      (forall e h1,
         retrievePayment remote paymentData (called h request) = (Throw e, h1) ->
         cancelPayment remote paymentData h = (Throw failure, h1))
  end.
Proof.
  intros Hembeds Hnot Hrequest orderId failure.
  pose proof (embeddedOrder_embeds _ _ Hembeds) as Horder.
  assert (Hrun : cancelPayment remote paymentData h
                 = try_catch
                     (await remote request ;;; retrievePayment remote paymentData)
                     (fun _ => throw failure) h).
  { unfold cancelRequest in Hrequest.
    destruct (units o) as [|u rest] eqn:Hunits; [discriminate|].
    destruct (not_canceled_tests o u rest Hunits Hnot) as [Hfully Hvoided].
    assert (exists p, payments u = Some p) as [p Hp].
    { destruct (unit_captures u) as [|c cs] eqn:Hc.
      - destruct (forallb _ _); [|discriminate].
        destruct (unit_authorizations u) as [|a l] eqn:Ha; [discriminate|].
        unfold unit_authorizations in Ha.
        destruct (payments u); [eauto | discriminate].
      - unfold unit_captures in Hc. destruct (payments u); [eauto | discriminate]. }
    unfold cancelPayment at 1, bind at 1 2 3 4, eval at 1 2 3 4.
    rewrite Horder, hasPayments_json, Hunits, Hp, prop_order_status, Hfully, Hvoided.
    cbn [orb].
    destruct (unit_captures u) as [|c cs] eqn:Hc.
    - destruct (forallb _ (u :: rest)) eqn:Hall; [|discriminate].
      destruct (unit_authorizations u) as [|a l] eqn:Ha; [discriminate|].
      injection Hrequest as <-.
      assert (Hnone : no_unit_captured o).
      { unfold no_unit_captured. rewrite Hunits. by apply forallb_uncaptured. }
      unfold try_catch, bind at 1 2, eval at 1.
      rewrite (isAlreadyCaptured_false o u rest Hunits Hnone).
      unfold bind at 2, eval at 1.
      rewrite (firstAuthorizationId_json o u rest a l Hunits Ha). reflexivity.
    - injection Hrequest as <-.
      assert (Hsome : some_unit_captured o).
      { unfold some_unit_captured. rewrite Hunits. left. congruence. }
      unfold try_catch, bind at 1 2, eval at 1.
      rewrite (isAlreadyCaptured_true o Hsome).
      unfold bind at 2, eval at 1.
      rewrite (firstCaptureId_json o u rest c cs Hunits Hc). reflexivity. }
  rewrite Hrun.
  destruct (remote (trace h) request) as [accepted|error] eqn:Hremote.
  - split.
    + intros result id Hfetch Hid Htruthy.
      exists (fetched paymentData id result).
      split; [|split; [reflexivity | apply fetched_carries]].
      unfold try_catch, bind, await. rewrite Hremote.
      rewrite (retrievePayment_run remote paymentData (order_json o) orderId _
                 Horder (prop_order_id o)).
      cbn [trace]. rewrite Hfetch, Hid, Htruthy. reflexivity.
    + intros e h1 Hfetch.
      unfold try_catch, bind, await. rewrite Hremote.
      unfold called in Hfetch. rewrite Hfetch. reflexivity.
  - unfold try_catch, bind, await. rewrite Hremote. reflexivity.
Qed.

End CancelOutcome.

Lemma cancelPayment_outcome_witness :
  cancelPayment (Scenario.rejecting (ApiError 422 (VObj ∅)))
    (Scenario.payload Scenario.orderO2) start
  = (Throw (JsError "An error occurred in cancelPayment"),
     called start (RefundCapturedPayment (VStr "C1") VUndefined)).
Proof.
  refine (cancelPayment_outcome (Scenario.rejecting (ApiError 422 (VObj ∅)))
            (Scenario.payload Scenario.orderO2) Scenario.orderO2
            (RefundCapturedPayment (VStr "C1") VUndefined) start _ _ _).
  - eexists. split; reflexivity.
  - intros [Hvoided | (_ & u & rest & inv & Hunits & Hinv & _)].
    + discriminate.
    + injection Hunits as <- _. discriminate.
  - reflexivity.
Defined.

(** ** The order of the option checks *)

(** X14. [validateOptions] reports the first thing that is wrong, in the
    order client identifier, client secret, environment. *)
Theorem validateOptions_first_failure (options : gmap string value) :
  let id := option_value options "oAuthClientId" in
  let secret := option_value options "oAuthClientSecret" in
  let env := option_value options "environment" in
  (truthy id = false ->
   validateOptions options
   = Throw (MedusaError INVALID_DATA
              "oAuthClientId is required in the provider's options.")) /\
  (truthy id = true -> truthy secret = false ->
   validateOptions options
   = Throw (MedusaError INVALID_DATA
              "oAuthClientSecret is required in the provider's options.")) /\
  (truthy id = true -> truthy secret = true ->
   env <> VStr "production" -> env <> VStr "sandbox" ->
   validateOptions options
   = Throw (MedusaError INVALID_DATA
              "environment needs to be either production or sandbox")).
Proof.
  intros id secret env. unfold validateOptions.
  rewrite !prop_options. fold id secret env. cbn [and_then].
  repeat split.
  - intros ->. reflexivity.
  - intros -> ->. reflexivity.
  - intros -> -> Hproduction Hsandbox.
    apply is_string_false in Hproduction, Hsandbox.
    rewrite Hproduction, Hsandbox. reflexivity.
Qed.
